(** * The Dialog bridge of the modeler

    A shallow embedding of the [Dialog] module, the second half of
    [tasks/link-dependencies.js]: [Dialog.prototype.getDialogOptions],
    [Dialog.prototype.setDefaultPath] and [Dialog.prototype.showDialog],
    with the properties of the dialog specification proved about them. *)

From stdpp Require Import gmap strings list fin_maps.

Open Scope string_scope.

(** ** Data model *)

(** [{ id: ..., label: ... }] *)
Record button := mkButton { id : string; label : string }.

(** The object literals returned by the closures of [_dialogs].  A field an
    object literal does not have reads as [undefined]: [None].  [B] is what
    the [buttons] array holds: [button] objects as the closures build them,
    label strings once [showDialog] has rewritten the array.  [F] is whatever
    [filterExtensions] returns. *)
Record dialogOptions (B F : Type) := mkOptions {
  title : string;
  message : option string;
  detail : option string;
  type_ : option string;
  buttons : option (list B);
  defaultPath : option string;
  properties : option (list string);
  filters : option F;
  noLink : option bool
}.

Arguments mkOptions {B F}.
Arguments title {B F}.
Arguments message {B F}.
Arguments detail {B F}.
Arguments type_ {B F}.
Arguments buttons {B F}.
Arguments defaultPath {B F}.
Arguments properties {B F}.
Arguments filters {B F}.
Arguments noLink {B F}.

(** The [opts] argument: an object whose fields hold strings. *)
Abbreviation options := (gmap string string).

(** What a [throw] carries.  The module defines no error classes: a missing
    option is the [Error] of [ensureOptions]; everything else is a
    [TypeError] of the runtime, told apart here by the operation that
    raised it. *)
Inductive type_error :=
| NotAFunction        (* calling [undefined] or a plain object *)
| ReadOfUndefined     (* reading a property of [undefined] *)
| WriteToPrimitive    (* strict mode: assigning a property of a primitive *)
| InsideBuiltin       (* raised inside a member of [Object.prototype] *).

Inductive error :=
| MissingOptionError (key : string)
| TypeError (why : type_error).

(** The failure the specification calls [UnknownRequestTypeError]. *)
Definition UnknownRequestTypeError : error := TypeError NotAFunction.

Inductive result (A : Type) :=
| Ok (a : A)
| Throw (e : error).

Arguments Ok {A}.
Arguments Throw {A}.

(** Modelled from the spec: [ensureOptions] of [./util/ensure-opts], which
    is required by the module but not part of the sources.  It fails when a
    required field is absent from the options, at the first such field of
    the list it is given. *)
Fixpoint ensureOptions (expected : list string) (opts : options) : result unit :=
  match expected with
  | [] => Ok tt
  | key :: rest =>
      match opts !! key with
      | Some _ => ensureOptions rest opts
      | None => Throw (MissingOptionError key)
      end
  end.

(** [[ ... ].join('\n')] *)
Definition newline : string := String (Ascii.ascii_of_nat 10) EmptyString.

Fixpoint join (sep : string) (parts : list string) : string :=
  match parts with
  | [] => ""
  | [p] => p
  | p :: rest => p ++ sep ++ join sep rest
  end.

(** [options.name] after [ensureOptions] has passed; a field that is absent
    reads as [undefined], which [+] prints as such. *)
Definition field (opts : options) (key : string) : string :=
  default "undefined" (opts !! key).

Definition dquote : string := String (Ascii.ascii_of_nat 34) EmptyString.

(** The configuration store handed to the constructor: [config.get(key,
    fallback)] and [config.set(key, value)] over the stored preferences. *)
Definition config_get (store : gmap string string) (key fallback : string) : string :=
  default fallback (store !! key).

Definition config_set (store : gmap string string) (key value : string) : gmap string string :=
  <[key := value]> store.

(** [path.dirname] of the runtime on a POSIX system, for the examples: the
    directory part of a path, without the trailing separators. *)
Definition is_slash (c : Ascii.ascii) : bool := Ascii.eqb c (Ascii.ascii_of_nat 47).

(** The scan from the end of the path down to index 1: [rev_tail] holds the
    characters at the indices [i], [i - 1], ..., [1]. *)
Fixpoint dirname_end (i : nat) (rev_tail : list Ascii.ascii) (matchedSlash : bool)
  : option nat :=
  match rev_tail with
  | [] => None
  | c :: rest =>
      if is_slash c then
        if matchedSlash then dirname_end (pred i) rest true else Some i
      else dirname_end (pred i) rest false
  end.

Definition posix_dirname (path : string) : string :=
  match path with
  | EmptyString => "."
  | String c0 tail =>
      let hasRoot := is_slash c0 in
      match dirname_end (String.length tail) (rev (String.list_ascii_of_string tail)) true with
      | None => if hasRoot then "/" else "."
      | Some end_ =>
          if hasRoot && Nat.eqb end_ 1 then "//" else String.substring 0 end_ path
      end
  end.

Section DialogBridge.

(** [filterExtensions] of [./util/filter-extensions] and [path.dirname] of
    the runtime are used by the module and defined elsewhere: they are
    taken as they come. *)
Context {F : Type}.
Variable filterExtensions : list string -> F.
Variable dirname : string -> string.

Abbreviation spec := (dialogOptions button F).
Abbreviation closure := (options -> result spec).

(** ** The closures of [this._dialogs], in the order of the source *)

Definition contentChanged : closure := fun _ =>
  Ok {| title := "File changed";
        message := Some ("The file has been changed externally." ++ newline
                         ++ "Would you like to reload it?");
        detail := None;
        type_ := Some "question";
        buttons := Some [ mkButton "ok" "Reload"; mkButton "cancel" "Cancel" ];
        defaultPath := None; properties := None; filters := None; noLink := None |}.

Definition open (defaultPath' : string) : closure := fun _ =>
  Ok {| title := "Open diagram";
        message := None; detail := None; type_ := None; buttons := None;
        defaultPath := Some defaultPath';
        properties := Some [ "openFile"; "multiSelections" ];
        filters := Some (filterExtensions [ "supported"; "bpmn"; "dmn"; "cmmn"; "all" ]);
        noLink := None |}.

Definition save (defaultPath' : string) : closure := fun options =>
  match ensureOptions [ "name"; "fileType" ] options with
  | Throw e => Throw e
  | Ok _ =>
      Ok {| title := "Save " ++ field options "name" ++ " as..";
            message := None; detail := None; type_ := None; buttons := None;
            defaultPath := Some (defaultPath' ++ "/" ++ field options "name");
            properties := None;
            filters := Some (filterExtensions [ field options "fileType"; "all" ]);
            noLink := None |}
  end.

Definition close : closure := fun options =>
  match ensureOptions [ "name" ] options with
  | Throw e => Throw e
  | Ok _ =>
      Ok {| title := "Close diagram";
            message := Some ("Save changes to " ++ field options "name" ++ " before closing?");
            detail := None;
            type_ := Some "question";
            buttons := Some [ mkButton "cancel" "Cancel";
                              mkButton "save" "Save";
                              mkButton "discard" "Don't Save" ];
            defaultPath := None; properties := None; filters := None; noLink := None |}
  end.

Definition importError : closure := fun options =>
  match ensureOptions [ "name"; "errorDetails" ] options with
  | Throw e => Throw e
  | Ok _ =>
      Ok {| title := "Importing Error";
            message := Some "Ooops, we could not display this diagram!";
            detail := Some (join newline
              [ field options "errorDetails";
                "";
                "Do you believe " ++ dquote ++ field options "name" ++ dquote
                  ++ " is valid BPMN or DMN diagram?";
                "";
                "Post this error with your diagram in our forum for help." ]);
            type_ := Some "error";
            buttons := Some [ mkButton "cancel" "Close";
                              mkButton "ask-forum" "Ask in Forum" ];
            defaultPath := None; properties := None; filters := None; noLink := None |}
  end.

Definition unrecognizedFile : closure := fun options =>
  match ensureOptions [ "name" ] options with
  | Throw e => Throw e
  | Ok _ =>
      Ok {| title := "Unrecognized file format";
            message := Some ("The file " ++ dquote ++ field options "name" ++ dquote
                             ++ " is not a BPMN or DMN file.");
            detail := None;
            type_ := Some "warning";
            buttons := Some [ mkButton "cancel" "Close" ];
            defaultPath := None; properties := None; filters := None; noLink := None |}
  end.

Definition existingFile : closure := fun options =>
  match ensureOptions [ "name" ] options with
  | Throw e => Throw e
  | Ok _ =>
      Ok {| title := "Existing file";
            message := Some ("The file " ++ dquote ++ field options "name" ++ dquote
                             ++ " already exists. Do you want to overwrite it?");
            detail := None;
            type_ := Some "warning";
            buttons := Some [ mkButton "cancel" "Cancel";
                              mkButton "no-overwrite" "No";
                              mkButton "overwrite" "Overwrite" ];
            defaultPath := None; properties := None; filters := None; noLink := None |}
  end.

Definition reimportWarning : closure := fun _ =>
  Ok {| title := "Import warning";
        message := Some (join newline
          [ "Your diagram's undo history will be lost due to xml changes.";
            "";
            "Do you want to proceed?" ]);
        detail := None;
        type_ := Some "warning";
        buttons := Some [ mkButton "cancel" "Cancel";
                          mkButton "switch" "Switch";
                          mkButton "discard" "Discard changes" ];
        defaultPath := None; properties := None; filters := None; noLink := None |}.

Definition namespace : closure := fun _ =>
  Ok {| title := "Deprecated <activiti> namespace detected";
        message := Some "Would you like to convert your diagram to the <camunda> namespace?";
        detail := Some (join newline
          [ "This will allow you to maintain execution related properties.";
            "";
            "<camunda> namespace support works from Camunda BPM versions 7.4.0, 7.3.3, 7.2.6 onwards." ]);
        type_ := Some "warning";
        buttons := Some [ mkButton "cancel" "Cancel";
                          mkButton "no" "No";
                          mkButton "yes" "Yes" ];
        defaultPath := None; properties := None; filters := None; noLink := None |}.

Definition savingDenied : closure := fun _ =>
  Ok {| title := "Cannot save file";
        message := Some (join newline
          [ "We cannot save or overwrite the current file.";
            "Do you want to save the file as.. ?" ]);
        detail := None;
        type_ := Some "warning";
        buttons := Some [ mkButton "cancel" "Cancel";
                          mkButton "save-as" "Save File as.." ];
        defaultPath := None; properties := None; filters := None; noLink := None |}.

(** ** The table [this._dialogs] and property lookup on it *)

(** The keys of the object literal, in the order of the source. *)
Inductive kind :=
| ContentChanged | Open | Save | Close | ImportError | UnrecognizedFile
| ExistingFile | ReimportWarning | Namespace | SavingDenied.

Definition kinds : list kind :=
  [ ContentChanged; Open; Save; Close; ImportError; UnrecognizedFile;
    ExistingFile; ReimportWarning; Namespace; SavingDenied ].

Definition kind_name (k : kind) : string :=
  match k with
  | ContentChanged => "contentChanged"
  | Open => "open"
  | Save => "save"
  | Close => "close"
  | ImportError => "importError"
  | UnrecognizedFile => "unrecognizedFile"
  | ExistingFile => "existingFile"
  | ReimportWarning => "reimportWarning"
  | Namespace => "namespace"
  | SavingDenied => "savingDenied"
  end.

(** The closure stored under each key; [defaultPath'] is the variable of
    [getDialogOptions] the closures [open] and [save] capture. *)
Definition closure_of (defaultPath' : string) (k : kind) : closure :=
  match k with
  | ContentChanged => contentChanged
  | Open => open defaultPath'
  | Save => save defaultPath'
  | Close => close
  | ImportError => importError
  | UnrecognizedFile => unrecognizedFile
  | ExistingFile => existingFile
  | ReimportWarning => reimportWarning
  | Namespace => namespace
  | SavingDenied => savingDenied
  end.

(** The object literal assigned to [this._dialogs]. *)
Definition dialogs_literal (defaultPath' : string) : gmap string closure :=
  list_to_map ((fun k => (kind_name k, closure_of defaultPath' k)) <$> kinds).

(** The fields each kind's closure passes to [ensureOptions]. *)
Definition required (k : kind) : list string :=
  match k with
  | Save => [ "name"; "fileType" ]
  | Close => [ "name" ]
  | ImportError => [ "name"; "errorDetails" ]
  | UnrecognizedFile => [ "name" ]
  | ExistingFile => [ "name" ]
  | ContentChanged | Open | ReimportWarning | Namespace | SavingDenied => []
  end.

(** The table is a plain object: a key it does not own is looked up in
    [Object.prototype]. *)
Inductive proto_member :=
| P_constructor | P_defineGetter | P_defineSetter | P_hasOwnProperty
| P_lookupGetter | P_lookupSetter | P_isPrototypeOf | P_propertyIsEnumerable
| P_toString | P_valueOf | P_proto | P_toLocaleString.

Definition Object_prototype : gmap string proto_member :=
  list_to_map
    [ ("constructor", P_constructor);
      ("__defineGetter__", P_defineGetter);
      ("__defineSetter__", P_defineSetter);
      ("hasOwnProperty", P_hasOwnProperty);
      ("__lookupGetter__", P_lookupGetter);
      ("__lookupSetter__", P_lookupSetter);
      ("isPrototypeOf", P_isPrototypeOf);
      ("propertyIsEnumerable", P_propertyIsEnumerable);
      ("toString", P_toString);
      ("valueOf", P_valueOf);
      ("__proto__", P_proto);
      ("toLocaleString", P_toLocaleString) ].

(** What [this._dialogs[type](opts)] can evaluate to. *)
Inductive jsval :=
| VSpec (d : spec)        (* the object literal of one of the ten closures *)
| VOptions (o : options)  (* the caller's [opts] object itself *)
| VTable                  (* the table [this._dialogs] itself *)
| VPrimitive              (* a string or a boolean *)
| VUndefined.

(** [ToPropertyKey(opts)]: an own [toString] field of [opts] holds a string,
    which cannot be called, and [valueOf] does not return a primitive. *)
Definition to_property_key (opts : options) : result string :=
  match opts !! "toString" with
  | Some _ => Throw (TypeError InsideBuiltin)
  | None => Ok "[object Object]"
  end.

Definition keyed (opts : options) (v : jsval) : result jsval :=
  match to_property_key opts with
  | Throw e => Throw e
  | Ok _ => Ok v
  end.

(** Calling a member of [Object.prototype] on the table with [opts]. *)
Definition call_inherited (m : proto_member) (opts : options) : result jsval :=
  match m with
  | P_constructor => Ok (VOptions opts)
  | P_valueOf => Ok VTable
  | P_toString | P_toLocaleString | P_isPrototypeOf => Ok VPrimitive
  | P_hasOwnProperty | P_propertyIsEnumerable => keyed opts VPrimitive
  | P_lookupGetter | P_lookupSetter => keyed opts VUndefined
  | P_defineGetter | P_defineSetter => Throw (TypeError InsideBuiltin)
  | P_proto => Throw (TypeError NotAFunction)
  end.

(** [table[type](opts)] *)
Definition call_property (table : gmap string closure) (type : string) (opts : options)
  : result jsval :=
  match table !! type with
  | Some f =>
      match f opts with
      | Ok d => Ok (VSpec d)
      | Throw e => Throw e
      end
  | None =>
      match Object_prototype !! type with
      | Some m => call_inherited m opts
      | None => Throw (TypeError NotAFunction)
      end
  end.

(** ** The instance, the platform and the effects *)

(** What a native primitive is handed: the object literal of a closure, its
    [buttons] rewritten to their labels, or an object that is not a dialog
    specification (the caller's options, the table), with [noLink] written
    to it. *)
Inductive foreign :=
| FOptions (o : options)
| FTable.

Inductive native_arg :=
| ASpec (d : dialogOptions string F)
| AForeign (v : foreign).

(** [options.dialog]: the answers of the platform dialogs.  The message box
    answers with a button index, the open picker with the selected paths (at
    least one) or [undefined], the save picker with a path or [undefined]. *)
Record Platform := mkPlatform {
  showMessageBox : native_arg -> nat;
  showOpenDialog : native_arg -> option (string * list string);
  showSaveDialog : native_arg -> option string
}.

(** The value of [this._dialogs]: the keys of the literal, and whether
    [noLink] has been written to the table. *)
Record dialogs_object := mkTable {
  own : gmap string closure;
  table_noLink : bool
}.

(** The fields of a [Dialog]; [config] holds the contents of the store the
    instance refers to, [this_defaultPath] is [this.defaultPath]. *)
Record Dialog := mkDialog {
  dialog : Platform;
  config : gmap string string;
  userDesktopPath : string;
  this_defaultPath : option string;
  _dialogs : option dialogs_object
}.

(** [new Dialog({ dialog, config, userDesktopPath })] *)
Definition new_Dialog (dialog' : Platform) (config' : gmap string string)
    (userDesktopPath' : string) : Dialog :=
  mkDialog dialog' config' userDesktopPath' None None.

Inductive call :=
| ShowMessageBox (a : native_arg)
| ShowOpenDialog (a : native_arg)
| ShowSaveDialog (a : native_arg).

(** The instance and the native dialogs shown so far, oldest first. *)
Record world := mkWorld {
  this : Dialog;
  calls : list call
}.

(** State and exceptions: a [throw] keeps the writes made before it. *)
Definition M (A : Type) : Type := world -> result A * world.

Definition ret {A} (a : A) : M A := fun w => (Ok a, w).

Definition throw {A} (e : error) : M A := fun w => (Throw e, w).

Definition bind {A B} (m : M A) (k : A -> M B) : M B := fun w =>
  match m w with
  | (Ok a, w') => k a w'
  | (Throw e, w') => (Throw e, w')
  end.

Definition lift {A} (r : result A) : M A := fun w => (r, w).

Definition gets {A} (f : Dialog -> A) : M A := fun w => (Ok (f (this w)), w).

Definition modify (f : Dialog -> Dialog) : M unit := fun w =>
  (Ok tt, mkWorld (f (this w)) (calls w)).

Definition native {A} (c : call) (answer : A) : M A := fun w =>
  (Ok answer, mkWorld (this w) (calls w ++ [c])).

Notation "x <- m ;; k" := (bind m (fun x => k))
  (at level 100, m at next level, right associativity).
Notation "m ;;; k" := (bind m (fun _ => k))
  (at level 100, right associativity).

Definition set_dialogs (t : option dialogs_object) (d : Dialog) : Dialog :=
  mkDialog (dialog d) (config d) (userDesktopPath d) (this_defaultPath d) t.

Definition set_this_defaultPath (p : option string) (d : Dialog) : Dialog :=
  mkDialog (dialog d) (config d) (userDesktopPath d) p (_dialogs d).

Definition set_config (c : gmap string string) (d : Dialog) : Dialog :=
  mkDialog (dialog d) c (userDesktopPath d) (this_defaultPath d) (_dialogs d).

(** ** [Dialog.prototype.getDialogOptions] *)

Definition getDialogOptions (type : string) (opts : options) : M jsval :=
  store <- gets config ;;
  userDesktopPath' <- gets userDesktopPath ;;
  let defaultPath' := config_get store "defaultPath" userDesktopPath' in
  let table := dialogs_literal defaultPath' in
  modify (set_dialogs (Some (mkTable table false))) ;;;
  lift (call_property table type opts).

(** ** [Dialog.prototype.setDefaultPath] *)

(** The argument: one path, or the array of selected paths. *)
Inductive filenames :=
| One (p : string)
| Many (first : string) (rest : list string).

(** A string is truthy unless it is empty. *)
Definition truthy (s : string) : bool := negb (String.eqb s "").

(** [this.defaultPath && this.defaultPath === defaultPath] *)
Definition same_as_cached (cached : option string) (defaultPath' : string) : bool :=
  match cached with
  | Some c => truthy c && String.eqb c defaultPath'
  | None => false
  end.

Definition setDefaultPath (names : filenames) : M (option string) :=
  let defaultPath' :=
    match names with
    | Many first _ => first
    | One p => p
    end in
  cached <- gets this_defaultPath ;;
  if same_as_cached cached defaultPath' then ret cached
  else
    let dirname' := dirname defaultPath' in
    store <- gets config ;;
    modify (set_config (config_set store "defaultPath" dirname')) ;;;
    modify (set_this_defaultPath (Some dirname')) ;;;
    ret None.

(** ** [Dialog.prototype.showDialog] *)

(** What [showDialog] returns: a button id, the selected paths, the chosen
    path, or [undefined]. *)
Inductive retval :=
| RButton (id' : string)
| RFiles (first : string) (rest : list string)
| RFile (p : string)
| RUndefined.

(** The value of the variable [buttons]. *)
Inductive buttons_ref :=
| BArray (l : list button)
| BString (s : string)
| BUndefined.

(** [buttons = dialogOptions.buttons] *)
Definition read_buttons (dialogOptions' : jsval) : result buttons_ref :=
  match dialogOptions' with
  | VSpec d =>
      Ok (match buttons d with Some l => BArray l | None => BUndefined end)
  | VOptions o =>
      Ok (match o !! "buttons" with Some s => BString s | None => BUndefined end)
  | VTable | VPrimitive => Ok BUndefined
  | VUndefined => Throw (TypeError ReadOfUndefined)
  end.

(** [map(buttons, function(button) { return button.label; })] *)
Definition labels (l : list button) : list string := label <$> l.

(** An object literal after [dialogOptions.noLink = true] and the rewriting
    of its [buttons], when it has them, to their labels. *)
Definition shown_of (d : spec) : dialogOptions string F :=
  mkOptions (title d) (message d) (detail d) (type_ d)
            (labels <$> buttons d)
            (defaultPath d) (properties d) (filters d) (Some true).

(** [dialogOptions.noLink = true], then the rewriting of a truthy
    [dialogOptions.buttons]; the module is in strict mode. *)
Definition with_noLink (dialogOptions' : jsval) : M native_arg :=
  match dialogOptions' with
  | VSpec d => ret (ASpec (shown_of d))
  | VOptions o => ret (AForeign (FOptions o))
  | VTable =>
      table <- gets _dialogs ;;
      modify (set_dialogs ((fun t => mkTable (own t) true) <$> table)) ;;;
      ret (AForeign FTable)
  | VPrimitive => throw (TypeError WriteToPrimitive)
  | VUndefined => throw (TypeError ReadOfUndefined)
  end.

(** [buttons[result].id] *)
Definition button_id (buttons' : buttons_ref) (index : nat) : result retval :=
  match buttons' with
  | BArray l =>
      match l !! index with
      | Some b => Ok (RButton (id b))
      | None => Throw (TypeError ReadOfUndefined)
      end
  | BString s =>
      match String.get index s with
      | Some _ => Ok RUndefined
      | None => Throw (TypeError ReadOfUndefined)
      end
  | BUndefined => Throw (TypeError ReadOfUndefined)
  end.

(** The argument [setDefaultPath] is called with when [result] is truthy. *)
Definition chosen (result' : retval) : option filenames :=
  match result' with
  | RFiles first rest => Some (Many first rest)
  | RFile p => if truthy p then Some (One p) else None
  | RButton i => if truthy i then Some (One i) else None
  | RUndefined => None
  end.

(** The native dialog of the kind, and the reading of its answer. *)
Definition ask (type : string) (shown : native_arg) (buttons' : buttons_ref)
  : M retval :=
  dialog' <- gets dialog ;;
  if String.eqb type "open" then
    answer <- native (ShowOpenDialog shown) (showOpenDialog dialog' shown) ;;
    ret (match answer with
         | Some (first, rest) => RFiles first rest
         | None => RUndefined
         end)
  else if String.eqb type "save" then
    answer <- native (ShowSaveDialog shown) (showSaveDialog dialog' shown) ;;
    ret (match answer with
         | Some p => RFile p
         | None => RUndefined
         end)
  else
    index <- native (ShowMessageBox shown) (showMessageBox dialog' shown) ;;
    lift (button_id buttons' index).

(** [// save last used path to config] *)
Definition save_last_used_path (type : string) (result' : retval) : M unit :=
  match chosen result' with
  | Some names =>
      if String.eqb type "open" || String.eqb type "save"
      then setDefaultPath names ;;; ret tt
      else ret tt
  | None => ret tt
  end.

Definition showDialog (type : string) (opts : options) : M retval :=
  dialogOptions' <- getDialogOptions type opts ;;
  buttons' <- lift (read_buttons dialogOptions') ;;
  shown <- with_noLink dialogOptions' ;;
  result' <- ask type shown buttons' ;;
  save_last_used_path type result' ;;;
  ret result'.

End DialogBridge.

(** ** Instances for the examples *)

(** A stand-in for [filterExtensions]: the names it is given. *)
Definition extension_names (names : list string) : list string := names.

(** A user who presses the second button, selects two diagrams and saves as
    [/home/user/foo.bpmn]. *)
Definition answers : Platform (F := list string) :=
  mkPlatform (fun _ => 1)
             (fun _ => Some ("/home/user/a.bpmn", [ "/tmp/b.dmn" ]))
             (fun _ => Some "/home/user/foo.bpmn").

(** A user who dismisses the pickers. *)
Definition cancels : Platform (F := list string) :=
  mkPlatform (fun _ => 0) (fun _ => None) (fun _ => None).

(** A user who saves as [/a/x.bpmn] while the picker is seeded from the
    desktop, and as [/a] afterwards. *)
Definition saves_twice : Platform (F := list string) :=
  mkPlatform (fun _ => 0)
             (fun _ => None)
             (fun a => match a with
                       | ASpec d =>
                           if bool_decide (defaultPath d = Some "/desktop/x.bpmn")
                           then Some "/a/x.bpmn" else Some "/a"
                       | AForeign _ => None
                       end).

Definition fresh (p : Platform (F := list string)) : world :=
  mkWorld (new_Dialog p ∅ "/desktop") [].

Definition name_only : options := {[ "name" := "diagram.bpmn" ]}.

Definition name_and_type : options :=
  <[ "name" := "x.bpmn" ]> {[ "fileType" := "bpmn" ]}.

(** ** Properties *)

(** The fields the closure of kind [k] requires are all present. *)
Definition complete (k : kind) (opts : options) : bool :=
  forallb (fun key => bool_decide (is_Some (opts !! key))) (required k).

(** The identifiers of the buttons of each kind, in the order the design
    fixes; the file pickers have no buttons. *)
Definition button_ids (k : kind) : option (list string) :=
  match k with
  | ContentChanged => Some [ "ok"; "cancel" ]
  | Open | Save => None
  | Close => Some [ "cancel"; "save"; "discard" ]
  | ImportError => Some [ "cancel"; "ask-forum" ]
  | UnrecognizedFile => Some [ "cancel" ]
  | ExistingFile => Some [ "cancel"; "no-overwrite"; "overwrite" ]
  | ReimportWarning => Some [ "cancel"; "switch"; "discard" ]
  | Namespace => Some [ "cancel"; "no"; "yes" ]
  | SavingDenied => Some [ "cancel"; "save-as" ]
  end.

(** The identifiers of the buttons of an object literal, in order. *)
Definition ids_of {F} (d : dialogOptions button F) : option (list string) :=
  option_map (map id) (buttons d).

(** The object a native dialog was called with. *)
Definition call_arg {F} (c : call (F := F)) : native_arg :=
  match c with
  | ShowMessageBox a | ShowOpenDialog a | ShowSaveDialog a => a
  end.

(** The object handed over is an object literal of the table with
    [noLink = true]. *)
Definition noLink_set {F} (c : call (F := F)) : Prop :=
  ∃ d, call_arg c = ASpec d ∧ noLink d = Some true.

(** [type] is one of the keys of the table. *)
Definition known_kind (type : string) : bool :=
  bool_decide (type ∈ kind_name <$> kinds).

(** [type] names a member the table inherits from [Object.prototype]. *)
Definition inherited (type : string) : bool :=
  bool_decide (is_Some (Object_prototype !! type)).

(** The path [setDefaultPath] looks at. *)
Definition first_of (names : filenames) : string :=
  match names with
  | Many first _ => first
  | One p => p
  end.

(** Two instances that differ at most in [this._dialogs], the field
    [getDialogOptions] assigns before it reads it. *)
Definition same_instance {F} (d1 d2 : Dialog (F := F)) : Prop :=
  dialog d1 = dialog d2
  ∧ config d1 = config d2
  ∧ userDesktopPath d1 = userDesktopPath d2
  ∧ this_defaultPath d1 = this_defaultPath d2.

Definition observably_equal {F} (w1 w2 : world (F := F)) : Prop :=
  same_instance (this w1) (this w2) ∧ calls w1 = calls w2.

(** A computation that leaves the instance as it is, [this._dialogs]
    apart. *)
Definition keeps_instance {F A} (m : M (F := F) A) : Prop :=
  ∀ w, same_instance (this (m w).2) (this w).

(** [showDialog] up to the answer of the native dialog. *)
Definition until_answer {F} (filterExtensions : list string -> F)
    (type : string) (opts : options) : M retval :=
  bind (getDialogOptions filterExtensions type opts) (fun dialogOptions' =>
  bind (lift (read_buttons dialogOptions')) (fun buttons' =>
  bind (with_noLink dialogOptions') (fun shown =>
  ask type shown buttons'))).

(** A new instance but for a stale table in [this._dialogs]. *)
Definition stale_table : world :=
  mkWorld (mkDialog answers ∅ "/desktop" None (Some (mkTable ∅ true))) [].

(** An instance with another platform, another desktop path, a cached path
    and a dialog shown already, whose store holds [/desktop] as the default
    path. *)
Definition other_instance : world :=
  mkWorld (mkDialog cancels {[ "defaultPath" := "/desktop" ]} "/elsewhere"
                    (Some "/cached") None)
          [ ShowMessageBox (AForeign FTable) ].

(** The instance after a first [save] answered with [/a/x.bpmn]. *)
Definition after_first_save : world :=
  (showDialog extension_names posix_dirname "save" name_and_type (fresh saves_twice)).2.

(** The kinds shown as a message box. *)
Definition message_box (k : kind) : bool :=
  match k with
  | Open | Save => false
  | _ => true
  end.

(** ** The linking of dependencies, the first half of the file *)

(** [@typedef Dependency]; a [ref] that is [undefined] is [None]. *)
Record Dependency := mkDependency { repo : string; ref : option string }.

Definition comma : Ascii.ascii := Ascii.ascii_of_nat 44.
Definition hash : Ascii.ascii := Ascii.ascii_of_nat 35.

(** [s.split(sep)] for a separator of one character: the part before the
    first separator and the parts after it. *)
Fixpoint split_at (sep : Ascii.ascii) (s : string) : string * list string :=
  match s with
  | EmptyString => (EmptyString, [])
  | String c rest =>
      let (part, parts) := split_at sep rest in
      if Ascii.eqb c sep then (EmptyString, part :: parts)
      else (String c part, parts)
  end.

Definition split (sep : Ascii.ascii) (s : string) : list string :=
  let (part, parts) := split_at sep s in part :: parts.

(** [const [ repo, ref ] = dependency.split('#')] *)
Definition parse_dependency (dependency : string) : Dependency :=
  let (repo', rest) := split_at hash dependency in
  mkDependency repo' (head rest).

(** [getDependencies], of the value of [process.env.LINKED_DEPENDENCIES]. *)
Definition getDependencies (LINKED_DEPENDENCIES : option string) : list Dependency :=
  let rawDependencies :=
    match LINKED_DEPENDENCIES with
    | Some s => if truthy s then s else ""
    | None => ""
    end in
  let dependenciesList := List.filter truthy (split comma rawDependencies) in
  map parse_dependency dependenciesList.

(** A template literal prints [undefined] for a [ref] that is missing. *)
Definition print_ref (r : option string) : string := default "undefined" r.

(** [`${dependency.repo}#${dependency.ref}`] *)
Definition dependencyName (d : Dependency) : string :=
  repo d ++ "#" ++ print_ref (ref d).

Definition getRepoUrl (repo' : string) : string :=
  "https://github.com/" ++ repo' ++ ".git".

(** What a run of the script does, in order. *)
Inductive failure :=
| CommandFailed (cmd cwd : string)
| DelFailed (dir : string)
| MkdirFailed (dir : string)
| RuntimeTypeError.

Inductive event :=
| Log (line : string)
| LogError (line : string) (err : failure)
| Del (dir : string)
| Mkdir (dir : string)
| Exec (cmd cwd : string).

(** How a run ends: it returns, an exception escapes, or [process.exit]. *)
Inductive outcome (A : Type) :=
| Returned (a : A)
| Raised (err : failure)
| Exited (code : nat).

Arguments Returned {A}.
Arguments Raised {A}.
Arguments Exited {A}.

(** The machine the script runs on: whether a command, the deletion or the
    creation of a directory succeeds, given what has happened so far. *)
Record machine := mkMachine {
  exec_ok : list event -> string -> string -> bool;
  del_ok : list event -> string -> bool;
  mkdir_ok : list event -> string -> bool
}.

Section Linker.

(** [clientDir] and [dependenciesDir] are computed from [__dirname];
    [path.join] is that of the runtime. *)
Variable clientDir dependenciesDir : string.
Variable path_join : list string -> string.
Variable sys : machine.

Definition L (A : Type) : Type := list event -> outcome A * list event.

Definition done' : L unit := fun h => (Returned tt, h).

Definition then' {A B} (m : L A) (k : A -> L B) : L B := fun h =>
  match m h with
  | (Returned a, h') => k a h'
  | (Raised err, h') => (Raised err, h')
  | (Exited code, h') => (Exited code, h')
  end.

(** [try { body } catch (error) { handler(error) }] *)
Definition try_catch {A} (body : L A) (handler : failure -> L A) : L A := fun h =>
  match body h with
  | (Raised err, h') => handler err h'
  | other => other
  end.

Definition log (line : string) : L unit := fun h =>
  (Returned tt, (h ++ [Log line])%list).

Definition log_error (line : string) (err : failure) : L unit := fun h =>
  (Returned tt, (h ++ [LogError line err])%list).

Definition exit {A} (code : nat) : L A := fun h => (Exited code, h).

(** [exec(cmd, { cwd })]: the command runs, and throws when it fails. *)
Definition exec (cmd cwd : string) : L unit := fun h =>
  (if exec_ok sys h cmd cwd then Returned tt else Raised (CommandFailed cmd cwd),
   (h ++ [Exec cmd cwd])%list).

Definition del (dir : string) : L unit := fun h =>
  (if del_ok sys h dir then Returned tt else Raised (DelFailed dir),
   (h ++ [Del dir])%list).

Definition mkdirSync (dir : string) : L unit := fun h =>
  (if mkdir_ok sys h dir then Returned tt else Raised (MkdirFailed dir),
   (h ++ [Mkdir dir])%list).

Notation "m1 ;;; m2" := (then' m1 (fun _ => m2))
  (at level 100, right associativity).

Definition linkFromGitHub (d : Dependency) : L unit :=
  exec ("npm i " ++ repo d ++ "#" ++ print_ref (ref d)) clientDir.

Definition gitClone (repo' : string) : L unit :=
  let repoUrl := getRepoUrl repo' in
  exec ("git clone " ++ repoUrl) dependenciesDir.

Definition linkDmnJs (d : Dependency) : L unit :=
  gitClone (repo d) ;;;
  log ("Cloned " ++ repo d ++ ".") ;;;
  let rootDir := path_join [ dependenciesDir; "dmn-js" ] in
  exec ("git checkout " ++ print_ref (ref d)) rootDir ;;;
  log ("Checked out " ++ print_ref (ref d) ++ ".") ;;;
  exec "npm ci" rootDir ;;;
  log "Installed dependencies." ;;;
  exec "npm run build-distro" rootDir ;;;
  log "Built distro." ;;;
  let dmnJsDir := path_join [ rootDir; "packages"; "dmn-js" ] in
  exec "yarn link" dmnJsDir ;;;
  exec "yarn link dmn-js" clientDir.

Definition linkBpmnJs (d : Dependency) : L unit :=
  gitClone (repo d) ;;;
  log ("Cloned " ++ repo d ++ ".") ;;;
  let rootDir := path_join [ dependenciesDir; "bpmn-js" ] in
  exec ("git checkout " ++ print_ref (ref d)) rootDir ;;;
  log ("Checked out " ++ print_ref (ref d) ++ ".") ;;;
  exec "npm ci" rootDir ;;;
  log "Installed dependencies." ;;;
  exec "npm run distro" rootDir ;;;
  log "Built distro." ;;;
  exec "yarn link" rootDir ;;;
  exec "yarn link bpmn-js" clientDir.

(** The keys of [customLinkersMap]. *)
Definition customLinkersMap : gmap string (Dependency -> L unit) :=
  <[ "bpmn-io/bpmn-js" := linkBpmnJs ]> (<[ "bpmn-io/dmn-js" := linkDmnJs ]> ∅).

(** A member of [Object.prototype] called as a plain function, [this] being
    [undefined]: [Object] and [toString] return, [__proto__] is an object
    and cannot be called, every other member fails to turn [this] into an
    object. *)
Definition call_unbound (m : proto_member) : L unit :=
  match m with
  | P_constructor | P_toString => done'
  | _ => fun h => (Raised RuntimeTypeError, h)
  end.

(** [customLinkersMap[dependency.repo] || linkFromGitHub]: the map is a
    plain object, and each of the members it inherits is truthy. *)
Definition linker_of (d : Dependency) : Dependency -> L unit :=
  match customLinkersMap !! repo d with
  | Some link => link
  | None =>
      match Object_prototype !! repo d with
      | Some m => fun _ => call_unbound m
      | None => linkFromGitHub
      end
  end.

(** The body of the loop of [linkDependencies], for one dependency. *)
Definition link_one (d : Dependency) : L unit :=
  let link := linker_of d in
  let dependencyName' := dependencyName d in
  log ("Linking " ++ dependencyName' ++ "...") ;;;
  try_catch
    (link d ;;;
     log ("Linked " ++ dependencyName' ++ "."))
    (fun error' =>
       log_error ("Unable to link " ++ dependencyName' ++ " due to error:") error' ;;;
       log "Exiting." ;;;
       exit 1).

Fixpoint link_all (dependencies : list Dependency) : L unit :=
  match dependencies with
  | [] => done'
  | d :: rest => link_one d ;;; link_all rest
  end.

Definition linkDependencies (dependencies : list Dependency) : L unit :=
  match dependencies with
  | [] => log "No dependencies to link detected, exiting."
  | _ =>
      del dependenciesDir ;;;
      mkdirSync dependenciesDir ;;;
      link_all dependencies
  end.

(** The script: [linkDependencies(getDependencies())]. *)
Definition script (LINKED_DEPENDENCIES : option string) : L unit :=
  linkDependencies (getDependencies LINKED_DEPENDENCIES).

End Linker.

(** The character [c] occurs in [s]. *)
Fixpoint occurs (c : Ascii.ascii) (s : string) : bool :=
  match s with
  | EmptyString => false
  | String c' rest => Ascii.eqb c' c || occurs c rest
  end.

(** [s] is made of the character [c] alone. *)
Fixpoint only (c : Ascii.ascii) (s : string) : bool :=
  match s with
  | EmptyString => true
  | String c' rest => Ascii.eqb c' c && only c rest
  end.

(** Neither separator occurs in [s]. *)
Definition plain (s : string) : bool :=
  negb (occurs comma s) && negb (occurs hash s).

(** A dependency that has a [ref], written without separators. *)
Definition written_out (d : Dependency) : bool :=
  match ref d with
  | Some r => plain (repo d) && plain r
  | None => false
  end.

(** The value of [LINKED_DEPENDENCIES] that lists [deps]. *)
Definition listing (deps : list Dependency) : string :=
  join "," (map dependencyName deps).

(** A machine on which everything succeeds, and one on which the command
    [cmd] fails. *)
Definition all_ok : machine :=
  mkMachine (fun _ _ _ => true) (fun _ _ => true) (fun _ _ => true).

Definition fails_on (cmd : string) : machine :=
  mkMachine (fun _ c _ => negb (String.eqb c cmd)) (fun _ _ => true) (fun _ _ => true).

(** A stand-in for [path.join]. *)
Definition slash_join (parts : list string) : string := join "/" parts.

(** The lines [console.log] printed for a linked dependency. *)
Definition linked_lines (h : list event) : list string :=
  omap (fun e => match e with
                 | Log line =>
                     if String.prefix "Linked " line then Some line else None
                 | _ => None
                 end) h.

(** The event touches the directory tree of the dependencies as a whole. *)
Definition resets (e : event) : bool :=
  match e with
  | Del _ | Mkdir _ => true
  | _ => false
  end.

(** The event runs a command. *)
Definition runs (e : event) : bool :=
  match e with
  | Exec _ _ => true
  | _ => false
  end.

(** The event is neither the report of a linked dependency nor touches the
    directory tree as a whole. *)
Definition inner (e : event) : bool :=
  match e with
  | Log line => negb (String.prefix "Linked " line)
  | LogError _ _ | Exec _ _ => true
  | Del _ | Mkdir _ => false
  end.

(** A computation that only adds events, each of which satisfies [ok]. *)
Definition emits_only {A} (ok : event -> bool) (m : list event -> outcome A * list event)
  : Prop :=
  ∀ h, ∃ new, (m h).2 = (h ++ new)%list ∧ forallb ok new = true.

(** A computation that does not end the process. *)
Definition stays {A} (m : list event -> outcome A * list event) : Prop :=
  ∀ h code, (m h).1 ≠ Exited code.

(** [repo'] is one of the keys of [customLinkersMap]. *)
Definition custom (repo' : string) : bool :=
  bool_decide (repo' ∈ [ "bpmn-io/bpmn-js"; "bpmn-io/dmn-js" ]).

(** The line printed when [d] has been linked. *)
Definition linked_line (d : Dependency) : string :=
  "Linked " ++ dependencyName d ++ ".".

(** Every command among the events [new], run after [h], succeeded. *)
Fixpoint clean (sys : machine) (h new : list event) : bool :=
  match new with
  | [] => true
  | Exec cmd cwd :: rest =>
      exec_ok sys h cmd cwd && clean sys (h ++ [Exec cmd cwd]) rest
  | e :: rest => clean sys (h ++ [e]) rest
  end.

(** Among the events [new], run after [h], no command follows a command
    that failed. *)
Fixpoint halted (sys : machine) (h new : list event) : bool :=
  match new with
  | [] => true
  | Exec cmd cwd :: rest =>
      if exec_ok sys h cmd cwd then halted sys (h ++ [Exec cmd cwd]) rest
      else forallb (fun e => negb (runs e)) rest
  | e :: rest => halted sys (h ++ [e]) rest
  end.

(** A computation that runs no command after one that failed, and returns
    only if every command succeeded. *)
Definition careful {A} (sys : machine) (m : list event -> outcome A * list event)
  : Prop :=
  ∀ h, ∃ new,
    (m h).2 = (h ++ new)%list
    ∧ halted sys h new = true
    ∧ (∀ a, (m h).1 = Returned a → clean sys h new = true).

(** The dependencies of the example in the source, and two others. *)
Definition dmn_and_bpmn : list Dependency :=
  [ mkDependency "bpmn-io/dmn-js" (Some "master");
    mkDependency "bpmn-io/bpmn-js" (Some "develop") ].

Definition lib_a : Dependency := mkDependency "a/lib" (Some "1").
Definition lib_b : Dependency := mkDependency "b/lib" (Some "2").

(** The path cached in [this.defaultPath], once there is one, is the stored
    [defaultPath]. *)
Definition consistent {F} (w : world (F := F)) : Prop :=
  match this_defaultPath (this w) with
  | Some c => config (this w) !! "defaultPath" = Some c
  | None => True
  end.

(** A computation that shows at most [n] native dialogs. *)
Definition shows_at_most {F A} (n : nat) (m : M (F := F) A) : Prop :=
  ∀ w, ∃ new, calls (m w).2 = (calls w ++ new)%list ∧ (length new ≤ n)%nat.

Section Properties.

Context {F : Type}.
Variable filterExtensions : list string -> F.
Variable dirname : string -> string.

Lemma ensureOptions_complete expected (opts : options) :
  (∀ key, key ∈ expected → is_Some (opts !! key)) →
  ensureOptions expected opts = Ok tt.
Proof.
  induction expected as [|key rest IH]; intros Hall; [done|].
  simpl. destruct (Hall key) as [v ->]; [left|].
  apply IH. intros key' Hin. apply Hall. by right.
Qed.

Lemma ensureOptions_missing expected (opts : options) key :
  key ∈ expected → opts !! key = None →
  ∃ key', key' ∈ expected ∧ opts !! key' = None
          ∧ ensureOptions expected opts = Throw (MissingOptionError key').
Proof.
  induction expected as [|k rest IH]; intros Hin Hnone.
  - by apply elem_of_nil in Hin.
  - simpl. destruct (opts !! k) eqn:Hk.
    + apply elem_of_cons in Hin as [->|Hin]; [congruence|].
      destruct (IH Hin Hnone) as (key' & ? & ? & ?).
      exists key'. split_and!; [by right|done|done].
    + exists k. split_and!; [left|done|done].
Qed.

Lemma lookup_kind defaultPath' k :
  dialogs_literal filterExtensions defaultPath' !! kind_name k
  = Some (closure_of filterExtensions defaultPath' k).
Proof. by destruct k. Qed.

Lemma lookup_literal_Some defaultPath' type f :
  dialogs_literal filterExtensions defaultPath' !! type = Some f →
  ∃ k, type = kind_name k ∧ f = closure_of filterExtensions defaultPath' k.
Proof.
  intros H. apply elem_of_list_to_map_2 in H.
  apply list_elem_of_fmap in H as (k & Heq & _).
  exists k. by inversion Heq.
Qed.

Lemma lookup_literal_None defaultPath' type :
  (∀ k, type ≠ kind_name k) →
  dialogs_literal filterExtensions defaultPath' !! type = None.
Proof.
  intros Hne.
  destruct (dialogs_literal filterExtensions defaultPath' !! type) eqn:H; [|done].
  apply lookup_literal_Some in H as (k & -> & _). by destruct (Hne k).
Qed.

Lemma getDialogOptions_eq type opts w :
  getDialogOptions filterExtensions type opts w
  = (let defaultPath' :=
       config_get (config (this w)) "defaultPath" (userDesktopPath (this w)) in
     let table := dialogs_literal filterExtensions defaultPath' in
     (call_property table type opts,
      mkWorld (set_dialogs (Some (mkTable table false)) (this w)) (calls w))).
Proof. reflexivity. Qed.

Lemma complete_spec k (opts : options) :
  complete k opts = true → ∀ key, key ∈ required k → is_Some (opts !! key).
Proof.
  unfold complete. rewrite forallb_forall. intros H key Hin.
  apply list_elem_of_In, H in Hin. by apply bool_decide_eq_true in Hin.
Qed.

Lemma closure_complete defaultPath' k (opts : options) :
  complete k opts = true →
  ∃ d, closure_of filterExtensions defaultPath' k opts = Ok d
       ∧ ids_of d = button_ids k
       ∧ (defaultPath d = None ↔ message_box k = true).
Proof.
  intros Hc. pose proof (ensureOptions_complete _ _ (complete_spec _ _ Hc)) as He.
  destruct k; cbn [closure_of required] in *;
    unfold save, close, importError, unrecognizedFile, existingFile;
    rewrite ?He; (eexists; split; [reflexivity|]); by split_and!.
Qed.

Lemma incomplete_spec k (opts : options) :
  complete k opts = false → ∃ key, key ∈ required k ∧ opts !! key = None.
Proof.
  unfold complete. induction (required k) as [|key rest IH]; [done|].
  simpl. destruct (opts !! key) eqn:Hk.
  - rewrite bool_decide_eq_true_2 by eauto. simpl. intros Hrest.
    destruct (IH Hrest) as (key' & ? & ?). exists key'. split; [by right|done].
  - intros _. exists key. split; [left|done].
Qed.

(** The world [getDialogOptions] leaves: [this._dialogs] reassigned. *)
Lemma getDialogOptions_world type opts w :
  (getDialogOptions filterExtensions type opts w).2
  = mkWorld (set_dialogs
               (Some (mkTable
                  (dialogs_literal filterExtensions
                     (config_get (config (this w)) "defaultPath"
                                 (userDesktopPath (this w)))) false))
               (this w))
            (calls w).
Proof. reflexivity. Qed.

Lemma showDialog_throw type opts w e :
  (getDialogOptions filterExtensions type opts w).1 = Throw e →
  showDialog filterExtensions dirname type opts w
  = (Throw e, (getDialogOptions filterExtensions type opts w).2).
Proof.
  unfold showDialog, bind.
  destruct (getDialogOptions filterExtensions type opts w) as [[v|e'] w'];
    simpl; intros; by simplify_eq.
Qed.

Lemma setDefaultPath_eq names (w : @world F) :
  setDefaultPath dirname names w
  = let first := match names with Many first _ => first | One p => p end in
    if same_as_cached (this_defaultPath (this w)) first
    then (Ok (this_defaultPath (this w)), w)
    else (Ok None,
          mkWorld (set_this_defaultPath (Some (dirname first))
                     (set_config (config_set (config (this w)) "defaultPath"
                                             (dirname first))
                                 (this w)))
                  (calls w)).
Proof.
  unfold setDefaultPath, bind, gets. simpl.
  destruct (same_as_cached _ _); [by destruct w|reflexivity].
Qed.

(** A message-box kind: one message box, then the button at the index. *)
Lemma showDialog_message_box (w : world) k opts d :
  message_box k = true →
  closure_of filterExtensions
    (config_get (config (this w)) "defaultPath" (userDesktopPath (this w))) k opts
  = Ok d →
  showDialog filterExtensions dirname (kind_name k) opts w
  = (button_id (match buttons d with Some l => BArray l | None => BUndefined end)
               (showMessageBox (dialog (this w)) (ASpec (shown_of d))),
     mkWorld (this (getDialogOptions filterExtensions (kind_name k) opts w).2)
             (calls w ++ [ShowMessageBox (ASpec (shown_of d))])).
Proof.
  intros Hm Hd. rewrite getDialogOptions_world.
  unfold showDialog. unfold bind at 1. rewrite getDialogOptions_eq. cbv zeta.
  unfold call_property. rewrite lookup_kind, Hd.
  generalize (dialogs_literal filterExtensions
                (config_get (config (this w)) "defaultPath" (userDesktopPath (this w)))).
  intros table. destruct k; try discriminate Hm; cbn;
    (destruct (button_id _ _) as [[i| |p|]|]; cbn;
     unfold bind, save_last_used_path; cbn;
     [destruct (truthy i)| |destruct (truthy p)|..]; reflexivity).
Qed.

(** The file pickers: one picker, then [setDefaultPath] on a truthy answer. *)
Lemma showDialog_picker (w : world) k opts d :
  message_box k = false →
  closure_of filterExtensions
    (config_get (config (this w)) "defaultPath" (userDesktopPath (this w))) k opts
  = Ok d →
  showDialog filterExtensions dirname (kind_name k) opts w
  = let shown := ASpec (shown_of d) in
    let this' := this (getDialogOptions filterExtensions (kind_name k) opts w).2 in
    match k with
    | Open =>
        let w1 := mkWorld this' (calls w ++ [ShowOpenDialog shown]) in
        match showOpenDialog (dialog (this w)) shown with
        | Some (first, rest) =>
            (Ok (RFiles first rest), (setDefaultPath dirname (Many first rest) w1).2)
        | None => (Ok RUndefined, w1)
        end
    | _ =>
        let w1 := mkWorld this' (calls w ++ [ShowSaveDialog shown]) in
        match showSaveDialog (dialog (this w)) shown with
        | Some p =>
            (Ok (RFile p),
             if truthy p then (setDefaultPath dirname (One p) w1).2 else w1)
        | None => (Ok RUndefined, w1)
        end
    end.
Proof.
  intros Hm Hd. rewrite getDialogOptions_world.
  unfold showDialog. unfold bind at 1. rewrite getDialogOptions_eq. cbv zeta.
  unfold call_property. rewrite lookup_kind, Hd.
  generalize (dialogs_literal filterExtensions
                (config_get (config (this w)) "defaultPath" (userDesktopPath (this w)))).
  intros table. destruct k; try discriminate Hm; cbn.
  - destruct (showOpenDialog _ _) as [[first rest]|]; cbn; [|reflexivity].
    unfold bind, save_last_used_path. cbn -[setDefaultPath].
    unfold bind. rewrite setDefaultPath_eq. cbn.
    by destruct (same_as_cached _ _).
  - destruct (showSaveDialog _ _) as [p|]; cbn; [|reflexivity].
    unfold bind, save_last_used_path. cbn -[setDefaultPath].
    destruct (truthy p); cbn -[setDefaultPath]; [|reflexivity].
    unfold bind. rewrite setDefaultPath_eq. cbn.
    by destruct (same_as_cached _ _).
Qed.

(** C1: with all required options present, [getDialogOptions] returns, for
    every kind, the object literal of that kind, whose button identifiers are
    the fixed ones of the kind in their fixed order; those of [close] are
    [cancel], [save], [discard]; and every message-box kind has at least one
    button. *)
Theorem C1_buttons_fixed_per_kind (w : world) (k : kind) (opts : options) :
  complete k opts = true →
  ∃ d, (getDialogOptions filterExtensions (kind_name k) opts w).1 = Ok (VSpec d)
       ∧ ids_of d = button_ids k
       ∧ (k = Close → ids_of d = Some [ "cancel"; "save"; "discard" ])
       ∧ (message_box k = true → ∃ b l, buttons d = Some (b :: l)).
Proof.
  intros Hc. rewrite getDialogOptions_eq. simpl.
  unfold call_property. rewrite lookup_kind.
  destruct (closure_complete
              (config_get (config (this w)) "defaultPath" (userDesktopPath (this w)))
              k opts Hc) as (d & -> & Hids & _).
  exists d. split_and!; [done|done|by intros ->|].
  intros Hm. unfold ids_of in Hids.
  destruct (buttons d) as [[|b l]|]; destruct k; simpl in *;
    try discriminate; eauto.
Qed.

Lemma closure_incomplete defaultPath' k (opts : options) :
  complete k opts = false →
  ∃ key, key ∈ required k ∧ opts !! key = None
         ∧ closure_of filterExtensions defaultPath' k opts
           = Throw (MissingOptionError key).
Proof.
  intros Hc. destruct (incomplete_spec _ _ Hc) as (key0 & Hin & Hnone).
  destruct (ensureOptions_missing _ _ _ Hin Hnone) as (key & Hin' & Hnone' & He).
  exists key. split_and!; [done|done|].
  destruct k; cbn [closure_of required] in *;
    unfold save, close, importError, unrecognizedFile, existingFile;
    rewrite ?He; try done; by apply elem_of_nil in Hin.
Qed.

(** C2: when the options lack a field the kind requires, [getDialogOptions]
    fails with the missing-option error of such a field, and so does
    [showDialog], without a native dialog having been shown. *)
Theorem C2_missing_option_fails_first (w : world) (k : kind) (opts : options) :
  complete k opts = false →
  ∃ key, key ∈ required k ∧ opts !! key = None
         ∧ (getDialogOptions filterExtensions (kind_name k) opts w).1
           = Throw (MissingOptionError key)
         ∧ (showDialog filterExtensions dirname (kind_name k) opts w).1
           = Throw (MissingOptionError key)
         ∧ calls (showDialog filterExtensions dirname (kind_name k) opts w).2
           = calls w.
Proof.
  intros Hc.
  destruct (closure_incomplete
              (config_get (config (this w)) "defaultPath" (userDesktopPath (this w)))
              k opts Hc) as (key & Hin & Hnone & Hthrow).
  assert ((getDialogOptions filterExtensions (kind_name k) opts w).1
          = Throw (MissingOptionError key)) as Hget.
  { rewrite getDialogOptions_eq. simpl. unfold call_property.
    by rewrite lookup_kind, Hthrow. }
  exists key. split_and!; [done|done|done|..];
    by rewrite (showDialog_throw _ _ _ _ Hget).
Qed.

Lemma setDefaultPath_calls names (w : @world F) :
  calls (setDefaultPath dirname names w).2 = calls w.
Proof. rewrite setDefaultPath_eq. cbv zeta. by destruct (same_as_cached _ _). Qed.

(** C4: for a message-box kind with its options present, [showDialog] shows
    one message box, built from the object literal of the kind, and returns
    the identifier of the button at the index the platform answered; for
    [close] and the answer 1 that is [save]. *)
Theorem C4_button_at_index (w : world) (k : kind) (opts : options) :
  message_box k = true →
  complete k opts = true →
  ∃ d l,
    (getDialogOptions filterExtensions (kind_name k) opts w).1 = Ok (VSpec d)
    ∧ buttons d = Some l
    ∧ let out := showDialog filterExtensions dirname (kind_name k) opts w in
      let index := showMessageBox (dialog (this w)) (ASpec (shown_of d)) in
      calls out.2 = (calls w ++ [ShowMessageBox (ASpec (shown_of d))])%list
      ∧ (∀ b, l !! index = Some b → out.1 = Ok (RButton (id b)))
      ∧ (l !! index = None → out.1 = Throw (TypeError ReadOfUndefined))
      ∧ (k = Close → index = 1 → out.1 = Ok (RButton "save")).
Proof.
  intros Hm Hc.
  destruct (closure_complete
              (config_get (config (this w)) "defaultPath" (userDesktopPath (this w)))
              k opts Hc) as (d & Hd & Hids & _).
  assert (∃ l, buttons d = Some l) as [l Hl].
  { unfold ids_of in Hids. destruct (buttons d); [by eauto|].
    by destruct k. }
  exists d, l. split_and!.
  - rewrite getDialogOptions_eq. simpl. unfold call_property.
    by rewrite lookup_kind, Hd.
  - done.
  - cbv zeta. rewrite (showDialog_message_box _ _ _ _ Hm Hd), Hl. simpl.
    split_and!; [done|by intros b ->|by intros ->|].
    intros -> Hindex. rewrite Hindex.
    unfold ids_of in Hids. rewrite Hl in Hids. simpl in Hids.
    destruct l as [|b0 [|b1 l]]; [discriminate..|].
    injection Hids as _ Hsave _. simpl. by rewrite Hsave.
Qed.

Lemma picker_calls (w : world) k opts d :
  message_box k = false →
  closure_of filterExtensions
    (config_get (config (this w)) "defaultPath" (userDesktopPath (this w))) k opts
  = Ok d →
  calls (showDialog filterExtensions dirname (kind_name k) opts w).2
  = (calls w ++ [match k with
                 | Open => ShowOpenDialog (ASpec (shown_of d))
                 | _ => ShowSaveDialog (ASpec (shown_of d))
                 end])%list.
Proof.
  intros Hm Hd. rewrite (showDialog_picker _ _ _ _ Hm Hd). cbv zeta.
  destruct k; try discriminate Hm.
  - destruct (showOpenDialog _ _) as [[first rest]|]; [|done].
    cbn [snd]. by rewrite setDefaultPath_calls.
  - destruct (showSaveDialog _ _) as [p|]; [|done].
    cbn [snd]. destruct (truthy p); [|done]. by rewrite setDefaultPath_calls.
Qed.

(** C7: for [save] with [name] and [fileType] given, the save picker is
    shown once, seeded with the stored default path, a slash and the name,
    and filtered by [filterExtensions] of the file type and [all];
    [showDialog] returns the path the picker answered, or [undefined] when
    it was dismissed. *)
Theorem C7_save_picker (w : world) (opts : options) (name fileType : string) :
  opts !! "name" = Some name →
  opts !! "fileType" = Some fileType →
  ∃ d,
    (getDialogOptions filterExtensions "save" opts w).1 = Ok (VSpec d)
    ∧ defaultPath (shown_of d)
      = Some (config_get (config (this w)) "defaultPath" (userDesktopPath (this w))
              ++ "/" ++ name)
    ∧ filters (shown_of d) = Some (filterExtensions [ fileType; "all" ])
    ∧ let out := showDialog filterExtensions dirname "save" opts w in
      calls out.2 = (calls w ++ [ShowSaveDialog (ASpec (shown_of d))])%list
      ∧ out.1 = Ok (match showSaveDialog (dialog (this w)) (ASpec (shown_of d)) with
                    | Some p => RFile p
                    | None => RUndefined
                    end).
Proof.
  intros Hname Htype.
  set (stored := config_get (config (this w)) "defaultPath" (userDesktopPath (this w))).
  assert (closure_of filterExtensions stored Save opts
          = Ok {| title := "Save " ++ name ++ " as..";
                  message := None; detail := None; type_ := None; buttons := None;
                  defaultPath := Some (stored ++ "/" ++ name);
                  properties := None;
                  filters := Some (filterExtensions [ fileType; "all" ]);
                  noLink := None |}) as Hd.
  { cbn [closure_of]. unfold save, field. cbn [ensureOptions].
    by rewrite Hname, Htype. }
  eexists. split_and!.
  - rewrite getDialogOptions_eq. cbv zeta. unfold call_property.
    change "save" with (kind_name Save). rewrite lookup_kind.
    fold stored. by rewrite Hd.
  - reflexivity.
  - reflexivity.
  - cbv zeta. change "save" with (kind_name Save). split.
    + by rewrite (picker_calls w Save opts _ eq_refl Hd).
    + rewrite (showDialog_picker w Save opts _ eq_refl Hd). cbv zeta.
      by destruct (showSaveDialog _ _).
Qed.

(** C8: for [open], the open picker is shown once, with the properties
    [openFile] and [multiSelections], seeded with the stored default path and
    filtered by [filterExtensions] of [supported], [bpmn], [dmn], [cmmn] and
    [all]; [showDialog] returns the paths the picker answered, or
    [undefined] when it was dismissed. *)
Theorem C8_open_picker (w : world) (opts : options) :
  ∃ d,
    (getDialogOptions filterExtensions "open" opts w).1 = Ok (VSpec d)
    ∧ properties (shown_of d) = Some [ "openFile"; "multiSelections" ]
    ∧ defaultPath (shown_of d)
      = Some (config_get (config (this w)) "defaultPath" (userDesktopPath (this w)))
    ∧ filters (shown_of d)
      = Some (filterExtensions [ "supported"; "bpmn"; "dmn"; "cmmn"; "all" ])
    ∧ let out := showDialog filterExtensions dirname "open" opts w in
      calls out.2 = (calls w ++ [ShowOpenDialog (ASpec (shown_of d))])%list
      ∧ out.1 = Ok (match showOpenDialog (dialog (this w)) (ASpec (shown_of d)) with
                    | Some (first, rest) => RFiles first rest
                    | None => RUndefined
                    end).
Proof.
  set (stored := config_get (config (this w)) "defaultPath" (userDesktopPath (this w))).
  assert (closure_of filterExtensions stored Open opts
          = Ok {| title := "Open diagram";
                  message := None; detail := None; type_ := None; buttons := None;
                  defaultPath := Some stored;
                  properties := Some [ "openFile"; "multiSelections" ];
                  filters := Some (filterExtensions
                                     [ "supported"; "bpmn"; "dmn"; "cmmn"; "all" ]);
                  noLink := None |}) as Hd by reflexivity.
  eexists. split_and!.
  - rewrite getDialogOptions_eq. cbv zeta. unfold call_property.
    change "open" with (kind_name Open). rewrite lookup_kind.
    fold stored. by rewrite Hd.
  - reflexivity.
  - reflexivity.
  - reflexivity.
  - cbv zeta. change "open" with (kind_name Open). split.
    + by rewrite (picker_calls w Open opts _ eq_refl Hd).
    + rewrite (showDialog_picker w Open opts _ eq_refl Hd). cbv zeta.
      by destruct (showOpenDialog _ _) as [[]|].
Qed.

Lemma getDialogOptions_kind (w : world) k opts :
  (getDialogOptions filterExtensions (kind_name k) opts w).1
  = match closure_of filterExtensions
            (config_get (config (this w)) "defaultPath" (userDesktopPath (this w)))
            k opts with
    | Ok d => Ok (VSpec d)
    | Throw e => Throw e
    end.
Proof.
  rewrite getDialogOptions_eq. cbv zeta. unfold call_property.
  by rewrite lookup_kind.
Qed.

(** C9: whatever the kind and the platform, every object [showDialog] hands
    to a native dialog primitive, the file pickers included, carries
    [noLink = true]; with the options present exactly one such object is
    handed over. *)
Theorem C9_noLink_always_set (w : world) (k : kind) (opts : options) :
  let out := showDialog filterExtensions dirname (kind_name k) opts w in
  ∃ new,
    calls out.2 = (calls w ++ new)%list
    ∧ Forall noLink_set new
    ∧ (complete k opts = true → length new = 1).
Proof.
  cbv zeta. destruct (complete k opts) eqn:Hc.
  - destruct (closure_complete
                (config_get (config (this w)) "defaultPath" (userDesktopPath (this w)))
                k opts Hc) as (d & Hd & _ & _).
    destruct (message_box k) eqn:Hm.
    + exists [ShowMessageBox (ASpec (shown_of d))].
      rewrite (showDialog_message_box _ _ _ _ Hm Hd). split_and!; [done| |done].
      apply Forall_singleton. by exists (shown_of d).
    + eexists. rewrite (picker_calls _ _ _ _ Hm Hd). split_and!; [done| |done].
      apply Forall_singleton. exists (shown_of d). by destruct k.
  - destruct (closure_incomplete
                (config_get (config (this w)) "defaultPath" (userDesktopPath (this w)))
                k opts Hc) as (key & _ & _ & Hthrow).
    exists []. rewrite (showDialog_throw _ _ _ (MissingOptionError key)).
    + by rewrite app_nil_r.
    + by rewrite getDialogOptions_kind, Hthrow.
Qed.

Lemma known_kind_false type :
  known_kind type = false → ∀ k, type ≠ kind_name k.
Proof.
  unfold known_kind. intros H k ->. apply bool_decide_eq_false in H.
  apply H, list_elem_of_fmap. exists k. split; [done|].
  destruct k; set_solver.
Qed.

(** C5, as the code has it: a [type] that is neither a key of the table nor
    the name of a member inherited from [Object.prototype] makes
    [getDialogOptions], and with it [showDialog], fail with the error of
    calling [undefined], and no native dialog is shown. *)
Theorem C5_unknown_type_fails (w : world) (type : string) (opts : options) :
  known_kind type = false →
  inherited type = false →
  let out := showDialog filterExtensions dirname type opts w in
  (getDialogOptions filterExtensions type opts w).1 = Throw UnknownRequestTypeError
  ∧ out.1 = Throw UnknownRequestTypeError
  ∧ calls out.2 = calls w.
Proof.
  intros Hk Hi. cbv zeta.
  assert ((getDialogOptions filterExtensions type opts w).1
          = Throw UnknownRequestTypeError) as Hget.
  { rewrite getDialogOptions_eq. cbv zeta. unfold call_property.
    rewrite lookup_literal_None by by apply known_kind_false.
    apply bool_decide_eq_false in Hi.
    destruct (Object_prototype !! type); [|done]. destruct Hi. by eauto. }
  by rewrite (showDialog_throw _ _ _ _ Hget).
Qed.


(** *** What the steps of [showDialog] leave untouched *)

Lemma same_instance_refl (d : @Dialog F) : same_instance d d.
Proof. by repeat split. Qed.

Lemma same_instance_trans (d1 d2 d3 : @Dialog F) :
  same_instance d1 d2 → same_instance d2 d3 → same_instance d1 d3.
Proof. intros (?&?&?&?) (?&?&?&?). repeat split; congruence. Qed.

Lemma keeps_bind {A B} (m : M A) (k : A → M B) :
  keeps_instance (F := F) m → (∀ a, keeps_instance (k a)) →
  keeps_instance (bind m k).
Proof.
  intros Hm Hk w. unfold bind. specialize (Hm w).
  destruct (m w) as [[a|e] w1]; [|done].
  eapply same_instance_trans; [apply Hk|done].
Qed.

Lemma keeps_ret {A} (a : A) : keeps_instance (F := F) (ret a).
Proof. intros w. apply same_instance_refl. Qed.

Lemma keeps_throw {A} e : keeps_instance (F := F) (throw (A := A) e).
Proof. intros w. apply same_instance_refl. Qed.

Lemma keeps_lift {A} (r : result A) : keeps_instance (F := F) (lift r).
Proof. intros w. apply same_instance_refl. Qed.

Lemma keeps_gets {A} (f : Dialog → A) : keeps_instance (F := F) (gets f).
Proof. intros w. apply same_instance_refl. Qed.

Lemma keeps_native {A} c (answer : A) : keeps_instance (F := F) (native c answer).
Proof. intros w. apply same_instance_refl. Qed.

Lemma keeps_set_dialogs t : keeps_instance (F := F) (modify (set_dialogs t)).
Proof. intros w. by repeat split. Qed.

Create HintDb keeps.
#[local] Hint Resolve keeps_ret keeps_throw keeps_lift keeps_gets keeps_native
  keeps_set_dialogs : keeps.

Ltac keeps :=
  repeat first [ apply keeps_bind; [|intros ?] | progress eauto with keeps
               | match goal with
                 | |- keeps_instance (if ?b then _ else _) => destruct b
                 | |- keeps_instance (match ?x with _ => _ end) => destruct x
                 end ].

Lemma keeps_getDialogOptions type opts :
  keeps_instance (getDialogOptions filterExtensions type opts).
Proof. unfold getDialogOptions. keeps. Qed.

Lemma keeps_with_noLink (v : @jsval F) : keeps_instance (with_noLink v).
Proof. unfold with_noLink. keeps. Qed.

Lemma keeps_ask type (shown : @native_arg F) buttons' :
  keeps_instance (ask type shown buttons').
Proof. unfold ask. keeps. Qed.

Lemma keeps_until_answer type opts :
  keeps_instance (until_answer filterExtensions type opts).
Proof.
  unfold until_answer.
  repeat first [ apply keeps_getDialogOptions | apply keeps_with_noLink
               | apply keeps_ask | apply keeps_lift
               | apply keeps_bind; [|intros ?] ].
Qed.

Lemma showDialog_split type opts (w : world) :
  showDialog filterExtensions dirname type opts w
  = bind (until_answer filterExtensions type opts)
         (fun result' => bind (save_last_used_path dirname type result')
                              (fun _ => ret result')) w.
Proof.
  unfold showDialog, until_answer, bind.
  destruct (getDialogOptions _ _ _ w) as [[v|e] w0]; [|done].
  destruct (lift (read_buttons v) w0) as [[b|e] w1]; [|done].
  destruct (with_noLink v w1) as [[sh|e] w2]; [|done].
  by destruct (ask type sh b w2) as [[r|e] w3].
Qed.

(** Only [setDefaultPath] writes to the store, and [showDialog] calls it only
    for [open] and [save], on a truthy result. *)
Lemma showDialog_config (w : world) type opts :
  let out := showDialog filterExtensions dirname type opts w in
  config (this out.2)
  = match out.1 with
    | Ok result' =>
        match chosen result' with
        | Some names =>
            if (String.eqb type "open" || String.eqb type "save")
               && negb (same_as_cached (this_defaultPath (this w)) (first_of names))
            then config_set (config (this w)) "defaultPath" (dirname (first_of names))
            else config (this w)
        | None => config (this w)
        end
    | Throw _ => config (this w)
    end.
Proof.
  cbv zeta. rewrite showDialog_split. unfold bind at 1 3.
  destruct (keeps_until_answer type opts w) as (_ & Hconfig & _ & Hcache).
  destruct (until_answer filterExtensions type opts w) as [[r|e] w0];
    cbn [fst snd] in *; [|done].
  unfold save_last_used_path.
  destruct (chosen r) as [names|] eqn:Hchosen; [|by cbn; rewrite Hchosen].
  destruct (String.eqb type "open" || String.eqb type "save");
    [|by cbn; rewrite Hchosen].
  unfold bind. rewrite setDefaultPath_eq. cbv zeta. fold (first_of names).
  rewrite Hcache, Hconfig.
  destruct (same_as_cached (this_defaultPath (this w)) (first_of names)) eqn:Hsame;
    cbn; rewrite Hchosen, Hsame; cbn; congruence.
Qed.

(** What [showDialog] does to the store, the guard of [setDefaultPath]
    included: the stored [defaultPath] becomes the directory of the chosen
    path (the first one for [open]) when the kind is [open] or [save], the
    answer is truthy and the chosen path is not the path cached in
    [this.defaultPath]; otherwise the store is left as it was.  After a
    [save] answered with a path [p] that is not the cached one,
    [getDialogOptions] for [open] seeds the picker with the directory of
    [p]. *)
Lemma showDialog_defaultPath_updated_unless_cached (w : world) (type : string)
    (opts : options) :
  let out := showDialog filterExtensions dirname type opts w in
  config (this out.2)
  = match out.1 with
    | Ok result' =>
        match chosen result' with
        | Some names =>
            if (String.eqb type "open" || String.eqb type "save")
               && negb (same_as_cached (this_defaultPath (this w)) (first_of names))
            then config_set (config (this w)) "defaultPath" (dirname (first_of names))
            else config (this w)
        | None => config (this w)
        end
    | Throw _ => config (this w)
    end
  ∧ ∀ p opts',
      type = "save" →
      out.1 = Ok (RFile p) →
      truthy p = true →
      same_as_cached (this_defaultPath (this w)) p = false →
      ∃ d, (getDialogOptions filterExtensions "open" opts' out.2).1 = Ok (VSpec d)
           ∧ defaultPath d = Some (dirname p).
Proof.
  cbv zeta. split; [apply showDialog_config|].
  intros p opts' -> Hout Htruthy Hsame.
  pose proof (showDialog_config w "save" opts) as Hconfig. cbv zeta in Hconfig.
  rewrite Hout in Hconfig. cbn in Hconfig. rewrite Htruthy in Hconfig.
  cbn in Hconfig. rewrite Hsame in Hconfig. cbn in Hconfig.
  eexists. split.
  - change "open" with (kind_name Open). rewrite getDialogOptions_kind. reflexivity.
  - cbn. rewrite Hconfig. unfold config_get, config_set.
    by rewrite lookup_insert_eq.
Qed.

(** What [setDefaultPath] does with an array, the guard included: the array
    is treated as its first element alone, whatever the other elements are;
    when that element is not the path cached in [this.defaultPath], its
    directory becomes the stored [defaultPath] and the cached path, and
    [undefined] is returned; when it is, nothing is written and the cached
    path is returned. *)
Lemma setDefaultPath_first_element_only (w : @world F) (first : string)
    (rest rest' : list string) :
  let out := setDefaultPath dirname (Many first rest) w in
  out = setDefaultPath dirname (Many first rest') w
  ∧ out = setDefaultPath dirname (One first) w
  ∧ (same_as_cached (this_defaultPath (this w)) first = false →
       out.1 = Ok None
       ∧ config (this out.2) !! "defaultPath" = Some (dirname first)
       ∧ this_defaultPath (this out.2) = Some (dirname first))
  ∧ (same_as_cached (this_defaultPath (this w)) first = true →
       out = (Ok (this_defaultPath (this w)), w)).
Proof.
  cbv zeta. rewrite !setDefaultPath_eq. cbv zeta. split_and!; [done|done|..].
  - intros ->. cbn. split_and!; [done| |done].
    unfold config_set. by rewrite lookup_insert_eq.
  - by intros ->.
Qed.

Lemma observably_equal_showDialog type opts (w w2 : world) :
  observably_equal w w2 →
  showDialog filterExtensions dirname type opts w2
  = showDialog filterExtensions dirname type opts w.
Proof.
  destruct w as [[d c u p t] cs], w2 as [[d2 c2 u2 p2 t2] cs2].
  intros [(?&?&?&?) ?]. simplify_eq/=.
  unfold showDialog. unfold bind at 1 6. by rewrite !getDialogOptions_eq.
Qed.

Lemma observably_equal_setDefaultPath names (w w2 : @world F) :
  observably_equal w w2 →
  (setDefaultPath dirname names w2).1 = (setDefaultPath dirname names w).1
  ∧ observably_equal (setDefaultPath dirname names w2).2
                     (setDefaultPath dirname names w).2.
Proof.
  destruct w as [[d c u p t] cs], w2 as [[d2 c2 u2 p2 t2] cs2].
  intros [(?&?&?&?) ?]. simplify_eq/=.
  rewrite !setDefaultPath_eq. cbn.
  destruct (same_as_cached _ _); by repeat split.
Qed.

(** C6: [getDialogOptions] has no side effect that can be observed.  The
    store, the fields [dialog], [config], [userDesktopPath] and
    [defaultPath] of the instance and the native dialogs shown are as
    before; the one field it assigns, [this._dialogs], is assigned by every
    call before it is read, so that worlds that differ in it only cannot be
    told apart through [showDialog] or [setDefaultPath].  Of the world the
    result depends on nothing but the value
    [config.get('defaultPath', userDesktopPath)]: with the same type and
    options, any world in which that value is the same, whatever its cached
    path, its platform and the dialogs shown so far, gives the same result,
    and so does a second call. *)
Theorem C6_getDialogOptions_no_side_effects (w w2 w3 : world) (type : string)
    (opts : options) :
  config_get (config (this w2)) "defaultPath" (userDesktopPath (this w2))
  = config_get (config (this w)) "defaultPath" (userDesktopPath (this w)) →
  observably_equal w w3 →
  let out := getDialogOptions filterExtensions type opts w in
  observably_equal out.2 w
  ∧ config (this out.2) = config (this w)
  ∧ _dialogs (this out.2)
    = Some (mkTable
              (dialogs_literal filterExtensions
                 (config_get (config (this w)) "defaultPath"
                             (userDesktopPath (this w))))
              false)
  ∧ (getDialogOptions filterExtensions type opts w2).1 = out.1
  ∧ (getDialogOptions filterExtensions type opts out.2).1 = out.1
  ∧ (∀ type' opts',
       showDialog filterExtensions dirname type' opts' w3
       = showDialog filterExtensions dirname type' opts' w)
  ∧ (∀ names,
       (setDefaultPath dirname names w3).1 = (setDefaultPath dirname names w).1
       ∧ observably_equal (setDefaultPath dirname names w3).2
                          (setDefaultPath dirname names w).2).
Proof.
  intros Hread Heq. cbv zeta. split_and!.
  - by repeat split.
  - done.
  - done.
  - rewrite !getDialogOptions_eq. cbn. by rewrite Hread.
  - by rewrite !getDialogOptions_eq.
  - intros. by apply observably_equal_showDialog.
  - intros. by apply observably_equal_setDefaultPath.
Qed.

(** *** Further properties of the dialog bridge *)

Lemma shows_bind {A B} a b (m : M A) (k : A → M B) :
  shows_at_most (F := F) a m → (∀ x, shows_at_most b (k x)) →
  shows_at_most (a + b) (bind m k).
Proof.
  intros Hm Hk w. unfold bind. destruct (Hm w) as (new & Hnew & Hlen).
  destruct (m w) as [[x|e] w1]; cbn [snd] in *.
  - destruct (Hk x w1) as (new' & Hnew' & Hlen').
    exists (new ++ new')%list. rewrite Hnew', Hnew, length_app.
    split; [by rewrite app_assoc|lia].
  - exists new. split; [done|lia].
Qed.

Lemma shows_none {A} (m : M A) :
  (∀ w, calls (m w).2 = calls w) → shows_at_most (F := F) 0 m.
Proof. intros H w. exists []. by rewrite H, app_nil_r. Qed.

Lemma shows_getDialogOptions type opts :
  shows_at_most 0 (getDialogOptions filterExtensions type opts).
Proof. by apply shows_none. Qed.

Lemma shows_with_noLink (v : @jsval F) : shows_at_most 0 (with_noLink v).
Proof. apply shows_none. intros w. by destruct v. Qed.

Lemma shows_ask type (shown : @native_arg F) buttons' :
  shows_at_most 1 (ask type shown buttons').
Proof.
  intros w. unfold ask, bind, gets. cbn.
  destruct (String.eqb type "open"); [|destruct (String.eqb type "save")]; cbn.
  - eexists [_]. split; [reflexivity|done].
  - eexists [_]. split; [reflexivity|done].
  - eexists [_]. split; [reflexivity|done].
Qed.

Lemma shows_save_last_used_path type result' :
  shows_at_most (F := F) 0 (save_last_used_path dirname type result').
Proof.
  apply shows_none. intros w. unfold save_last_used_path.
  destruct (chosen result') as [names|]; [|done].
  destruct (String.eqb type "open" || String.eqb type "save"); [|done].
  unfold bind. pose proof (setDefaultPath_calls names w) as Hcalls.
  by destruct (setDefaultPath dirname names w) as [[?|?] ?].
Qed.

(** X1: whatever the type and the options, [showDialog] shows at most one
    native dialog, and none when [getDialogOptions] fails. *)
Theorem X1_at_most_one_native_dialog (w : world) (type : string) (opts : options) :
  let out := showDialog filterExtensions dirname type opts w in
  (∃ new, calls out.2 = (calls w ++ new)%list ∧ (length new ≤ 1)%nat)
  ∧ (∀ e, (getDialogOptions filterExtensions type opts w).1 = Throw e →
          calls out.2 = calls w).
Proof.
  cbv zeta. split.
  - assert (shows_at_most 1 (showDialog filterExtensions dirname type opts)) as H;
      [|exact (H w)].
    unfold showDialog.
    apply (shows_bind 0 1); [apply shows_getDialogOptions|intros v].
    apply (shows_bind 0 1); [by apply shows_none|intros b].
    apply (shows_bind 0 1); [apply shows_with_noLink|intros sh].
    apply (shows_bind 1 0); [apply shows_ask|intros r].
    apply (shows_bind 0 0); [apply shows_save_last_used_path|intros _].
    by apply shows_none.
  - intros e He. by rewrite (showDialog_throw _ _ _ _ He).
Qed.

(** X2: of the store, [setDefaultPath] and [showDialog] write the key
    [defaultPath] only: every other preference reads as before, whatever the
    type, the options and the answer of the platform. *)
Theorem X2_only_defaultPath_is_written (w : world) (type : string)
    (opts : options) (names : filenames) (key : string) :
  key ≠ "defaultPath" →
  config (this (setDefaultPath dirname names w).2) !! key = config (this w) !! key
  ∧ config (this (showDialog filterExtensions dirname type opts w).2) !! key
    = config (this w) !! key.
Proof.
  intros Hkey. split.
  - rewrite setDefaultPath_eq. cbv zeta.
    destruct (same_as_cached _ _); [done|]. cbn. unfold config_set.
    by rewrite lookup_insert_ne.
  - pose proof (showDialog_config w type opts) as Hconfig. cbv zeta in Hconfig.
    rewrite Hconfig.
    destruct (showDialog filterExtensions dirname type opts w).1 as [r|e]; [|done].
    destruct (chosen r) as [names'|]; [|done].
    destruct (_ && _); [|done].
    unfold config_set. by rewrite lookup_insert_ne.
Qed.

Lemma showDialog_throw_inv type opts (w : world) e :
  (showDialog filterExtensions dirname type opts w).1 = Throw e →
  showDialog filterExtensions dirname type opts w
  = until_answer filterExtensions type opts w.
Proof.
  rewrite showDialog_split. unfold bind at 1 3.
  destruct (until_answer filterExtensions type opts w) as [[r|e'] w0]; [|by cbn].
  unfold save_last_used_path.
  destruct (chosen r) as [names|]; [|by cbn].
  destruct (String.eqb type "open" || String.eqb type "save"); [|by cbn].
  unfold bind. rewrite setDefaultPath_eq. cbv zeta.
  by destruct (same_as_cached _ _); cbn.
Qed.

(** X3: a [showDialog] that fails, for whatever reason, has written neither
    the store nor [this.defaultPath]. *)
Theorem X3_failure_writes_nothing (w : world) (type : string) (opts : options)
    (e : error) :
  let out := showDialog filterExtensions dirname type opts w in
  out.1 = Throw e →
  config (this out.2) = config (this w)
  ∧ this_defaultPath (this out.2) = this_defaultPath (this w).
Proof.
  cbv zeta. intros Hthrow. rewrite (showDialog_throw_inv _ _ _ _ Hthrow).
  by destruct (keeps_until_answer type opts w) as (_ & ? & _ & ?).
Qed.

Lemma consistent_setDefaultPath names (w : @world F) :
  consistent w → consistent (setDefaultPath dirname names w).2.
Proof.
  intros Hw. rewrite setDefaultPath_eq. cbv zeta.
  destruct (same_as_cached _ _); [done|].
  unfold consistent, config_set. cbn. by rewrite lookup_insert_eq.
Qed.

Lemma consistent_same_instance (w w' : @world F) :
  same_instance (this w') (this w) → consistent w → consistent w'.
Proof. unfold consistent. intros (_ & -> & _ & ->). done. Qed.

(** X4: on a new instance nothing is cached, and every method keeps the
    path cached in [this.defaultPath] equal to the stored [defaultPath]. *)
Theorem X4_cache_agrees_with_store (w : world) (type : string) (opts : options)
    (names : filenames) :
  consistent w →
  consistent (getDialogOptions filterExtensions type opts w).2
  ∧ consistent (setDefaultPath dirname names w).2
  ∧ consistent (showDialog filterExtensions dirname type opts w).2
  ∧ ∀ dialog' store desktop,
      consistent (F := F) (mkWorld (new_Dialog dialog' store desktop) []).
Proof.
  intros Hw. split_and!.
  - eapply consistent_same_instance; [apply keeps_getDialogOptions|done].
  - by apply consistent_setDefaultPath.
  - rewrite showDialog_split. unfold bind at 1.
    pose proof (keeps_until_answer type opts w) as Hkeeps.
    destruct (until_answer filterExtensions type opts w) as [[r|e] w0];
      cbn [snd] in Hkeeps;
      pose proof (consistent_same_instance _ _ Hkeeps Hw) as Hw0; [|done].
    unfold save_last_used_path.
    destruct (chosen r) as [names'|]; [|done].
    destruct (String.eqb type "open" || String.eqb type "save"); [|done].
    unfold bind. pose proof (consistent_setDefaultPath names' w0 Hw0) as Hset.
    by destruct (setDefaultPath dirname names' w0) as [[?|?] ?].
  - done.
Qed.

(** X5: calling [setDefaultPath] a second time with the same paths changes
    nothing. *)
Theorem X5_setDefaultPath_idempotent (w : @world F) (names : filenames) :
  (setDefaultPath dirname names (setDefaultPath dirname names w).2).2
  = (setDefaultPath dirname names w).2.
Proof.
  rewrite (setDefaultPath_eq names w). cbv zeta.
  destruct (same_as_cached (this_defaultPath (this w)) _) eqn:Hsame; cbn [snd].
  - rewrite setDefaultPath_eq. cbv zeta. by rewrite Hsame.
  - rewrite setDefaultPath_eq. cbv zeta. cbn.
    destruct (truthy _ && _); [done|]. cbn.
    unfold config_set. by rewrite insert_insert_eq.
Qed.

(** X6: the labels a message box shows are those of the kind's buttons, in
    the same order, so that an answer pointing at a shown label returns the
    identifier of the button carrying that label. *)
Theorem X6_label_and_identifier_agree (w : world) (k : kind) (opts : options)
    (lab : string) :
  message_box k = true →
  complete k opts = true →
  ∃ d l shown_labels,
    (getDialogOptions filterExtensions (kind_name k) opts w).1 = Ok (VSpec d)
    ∧ buttons d = Some l
    ∧ buttons (shown_of d) = Some shown_labels
    ∧ length shown_labels = length l
    ∧ (shown_labels !! showMessageBox (dialog (this w)) (ASpec (shown_of d))
       = Some lab →
       ∃ b, l !! showMessageBox (dialog (this w)) (ASpec (shown_of d)) = Some b
            ∧ label b = lab
            ∧ (showDialog filterExtensions dirname (kind_name k) opts w).1
              = Ok (RButton (id b))).
Proof.
  intros Hm Hc.
  destruct (closure_complete
              (config_get (config (this w)) "defaultPath" (userDesktopPath (this w)))
              k opts Hc) as (d & Hd & Hids & _).
  assert (∃ l, buttons d = Some l) as [l Hl].
  { unfold ids_of in Hids. destruct (buttons d); [by eauto|]. by destruct k. }
  exists d, l, (labels l). split_and!.
  - by rewrite getDialogOptions_kind, Hd.
  - done.
  - cbn. by rewrite Hl.
  - unfold labels. by rewrite length_fmap.
  - unfold labels. rewrite list_lookup_fmap. intros Hlab.
    destruct (l !! _) as [b|] eqn:Hb; [|done].
    exists b. split_and!; [done|by simplify_eq/=|].
    by rewrite (showDialog_message_box _ _ _ _ Hm Hd), Hl; cbn; rewrite Hb.
Qed.

(** X7: every message box has a button with the identifier [cancel], and
    neither two identifiers nor two labels of one message box are equal. *)
Theorem X7_cancel_offered_and_buttons_distinct (w : world) (k : kind)
    (opts : options) :
  message_box k = true →
  complete k opts = true →
  ∃ d l,
    (getDialogOptions filterExtensions (kind_name k) opts w).1 = Ok (VSpec d)
    ∧ buttons d = Some l
    ∧ "cancel" ∈ (id <$> l)
    ∧ NoDup (id <$> l)
    ∧ NoDup (label <$> l).
Proof.
  intros Hm Hc. rewrite getDialogOptions_kind.
  pose proof (ensureOptions_complete _ _ (complete_spec _ _ Hc)) as He.
  destruct k; try discriminate Hm; cbn [closure_of required] in *;
    unfold close, importError, unrecognizedFile, existingFile;
    rewrite ?He; (eexists _, _; split; [reflexivity|]);
    (split; [reflexivity|]); cbn;
    split_and!; by apply (bool_decide_unpack _).
Qed.

(** X8: of the options, a kind reads the fields it requires and no other:
    options that agree on them give the same result, failure included. *)
Theorem X8_only_required_fields_are_read (w : world) (k : kind)
    (opts1 opts2 : options) :
  (∀ key, key ∈ required k → opts1 !! key = opts2 !! key) →
  (getDialogOptions filterExtensions (kind_name k) opts1 w).1
  = (getDialogOptions filterExtensions (kind_name k) opts2 w).1.
Proof.
  intros Hsame. rewrite !getDialogOptions_kind.
  destruct k; cbn [closure_of required] in *; try reflexivity;
    unfold save, close, importError, unrecognizedFile, existingFile, field;
    cbn [ensureOptions];
    repeat match goal with
           | |- context [opts1 !! ?key] =>
               rewrite (Hsame key) by set_solver
           end;
    reflexivity.
Qed.

(** X9: a message box does not depend on the preferences: the store and the
    desktop path have no influence on what [getDialogOptions] returns for a
    message-box kind. *)
Theorem X9_message_box_ignores_preferences (w1 w2 : world) (k : kind)
    (opts : options) :
  message_box k = true →
  (getDialogOptions filterExtensions (kind_name k) opts w1).1
  = (getDialogOptions filterExtensions (kind_name k) opts w2).1.
Proof.
  intros Hm. rewrite !getDialogOptions_kind.
  by destruct k; try discriminate Hm.
Qed.

(** X10: what [showDialog] returns fits the kind: for a message-box kind one
    of the identifiers of the kind's buttons and nothing else, for [open] the
    selected paths or [undefined], for [save] a path or [undefined]. *)
Theorem X10_result_fits_kind (w : world) (k : kind) (opts : options) (r : retval) :
  (showDialog filterExtensions dirname (kind_name k) opts w).1 = Ok r →
  match k with
  | Open => r = RUndefined ∨ ∃ first rest, r = RFiles first rest
  | Save => r = RUndefined ∨ ∃ p, r = RFile p
  | _ => ∃ i ids, r = RButton i ∧ button_ids k = Some ids ∧ i ∈ ids
  end.
Proof.
  intros Hr. destruct (complete k opts) eqn:Hc.
  - destruct (closure_complete
                (config_get (config (this w)) "defaultPath" (userDesktopPath (this w)))
                k opts Hc) as (d & Hd & Hids & _).
    destruct (message_box k) eqn:Hm.
    + rewrite (showDialog_message_box _ _ _ _ Hm Hd) in Hr. cbn [fst] in Hr.
      assert (∃ i ids, r = RButton i ∧ button_ids k = Some ids ∧ i ∈ ids) as Hgoal.
      { unfold ids_of in Hids. destruct (buttons d) as [l|]; [|by destruct k].
        cbn in Hr, Hids. destruct (l !! _) as [b|] eqn:Hb; [|done].
        exists (id b), (map id l). split_and!; [by simplify_eq|done|].
        apply list_elem_of_In, in_map, list_elem_of_In.
        by eapply list_elem_of_lookup_2. }
      by destruct k.
    + rewrite (showDialog_picker _ _ _ _ Hm Hd) in Hr. cbv zeta in Hr.
      destruct k; try discriminate Hm.
      * destruct (showOpenDialog _ _) as [[first rest]|]; simplify_eq/=; eauto.
      * destruct (showSaveDialog _ _) as [p|]; simplify_eq/=; eauto.
  - destruct (closure_incomplete
                (config_get (config (this w)) "defaultPath" (userDesktopPath (this w)))
                k opts Hc) as (key & _ & _ & Hthrow).
    rewrite (showDialog_throw _ _ _ (MissingOptionError key)) in Hr; [done|].
    by rewrite getDialogOptions_kind, Hthrow.
Qed.

End Properties.

(** ** The properties at concrete inputs *)

Lemma C1_close_buttons_witness :
  complete Close name_only = true
  ∧ ∃ d, (getDialogOptions extension_names "close" name_only (fresh answers)).1
         = Ok (VSpec d)
         ∧ ids_of d = Some [ "cancel"; "save"; "discard" ].
Proof.
  split; [reflexivity|].
  destruct (C1_buttons_fixed_per_kind extension_names (fresh answers) Close name_only
              eq_refl) as (d & Hd & _ & Hclose & _).
  exists d. split; [exact Hd|exact (Hclose eq_refl)].
Defined.

Lemma C2_save_without_fileType_witness :
  complete Save name_only = false
  ∧ ∃ key, key ∈ required Save ∧ name_only !! key = None
           ∧ (getDialogOptions extension_names "save" name_only (fresh answers)).1
             = Throw (MissingOptionError key)
           ∧ (showDialog extension_names posix_dirname "save" name_only
                (fresh answers)).1
             = Throw (MissingOptionError key)
           ∧ calls (showDialog extension_names posix_dirname "save" name_only
                      (fresh answers)).2
             = [].
Proof.
  split; [reflexivity|].
  exact (C2_missing_option_fails_first extension_names posix_dirname (fresh answers)
           Save name_only eq_refl).
Defined.

Lemma save_then_open_example :
  (showDialog extension_names posix_dirname "save" name_and_type (fresh answers)).1
  = Ok (RFile "/home/user/foo.bpmn")
  ∧ ∃ d, (getDialogOptions extension_names "open" ∅
            (showDialog extension_names posix_dirname "save" name_and_type
               (fresh answers)).2).1
         = Ok (VSpec d)
         ∧ defaultPath d = Some "/home/user".
Proof.
  split; [reflexivity|].
  exact (proj2 (showDialog_defaultPath_updated_unless_cached extension_names posix_dirname
                  (fresh answers) "save" name_and_type)
               "/home/user/foo.bpmn" ∅ eq_refl eq_refl eq_refl eq_refl).
Defined.

Lemma C4_close_index_1_witness :
  message_box Close = true
  ∧ complete Close name_only = true
  ∧ (showDialog extension_names posix_dirname "close" name_only (fresh answers)).1
    = Ok (RButton "save").
Proof.
  split; [reflexivity|]. split; [reflexivity|].
  destruct (C4_button_at_index extension_names posix_dirname (fresh answers) Close
              name_only eq_refl eq_refl) as (d & l & _ & _ & _ & _ & _ & Hclose).
  exact (Hclose eq_refl eq_refl).
Defined.

Lemma C5_unknown_kind_witness :
  known_kind "unknown-kind" = false
  ∧ inherited "unknown-kind" = false
  ∧ (showDialog extension_names posix_dirname "unknown-kind" ∅ (fresh answers)).1
    = Throw UnknownRequestTypeError
  ∧ calls (showDialog extension_names posix_dirname "unknown-kind" ∅
             (fresh answers)).2
    = [].
Proof.
  split; [reflexivity|]. split; [reflexivity|].
  exact (proj2 (C5_unknown_type_fails extension_names posix_dirname (fresh answers)
                  "unknown-kind" ∅ eq_refl eq_refl)).
Defined.

Lemma C7_save_picker_witness :
  name_and_type !! "name" = Some "x.bpmn"
  ∧ name_and_type !! "fileType" = Some "bpmn"
  ∧ ∃ d,
      defaultPath (shown_of d) = Some "/desktop/x.bpmn"
      ∧ filters (shown_of d) = Some (extension_names [ "bpmn"; "all" ])
      ∧ calls (showDialog extension_names posix_dirname "save" name_and_type
                 (fresh answers)).2
        = [ShowSaveDialog (ASpec (shown_of d))].
Proof.
  split; [reflexivity|]. split; [reflexivity|].
  destruct (C7_save_picker extension_names posix_dirname (fresh answers) name_and_type
              "x.bpmn" "bpmn" eq_refl eq_refl)
    as (d & _ & Hpath & Hfilters & Hcalls & _).
  exists d. split; [exact Hpath|]. split; [exact Hfilters|exact Hcalls].
Defined.

Lemma two_paths_example :
  same_as_cached (this_defaultPath (this (fresh answers))) "/home/user/a.bpmn" = false
  ∧ config (this (setDefaultPath posix_dirname
                    (Many "/home/user/a.bpmn" [ "/tmp/b.dmn" ]) (fresh answers)).2)
    !! "defaultPath"
    = Some "/home/user".
Proof.
  split; [reflexivity|].
  destruct (setDefaultPath_first_element_only posix_dirname (fresh answers) "/home/user/a.bpmn"
              [ "/tmp/b.dmn" ] []) as (_ & _ & Hfresh & _).
  exact (proj1 (proj2 (Hfresh eq_refl))).
Defined.

Lemma C6_stale_table_witness :
  config_get (config (this other_instance)) "defaultPath"
             (userDesktopPath (this other_instance))
  = config_get (config (this (fresh answers))) "defaultPath"
               (userDesktopPath (this (fresh answers)))
  ∧ observably_equal (fresh answers) stale_table
  ∧ observably_equal
      (getDialogOptions extension_names "open" name_only (fresh answers)).2
      (fresh answers)
  ∧ (getDialogOptions extension_names "open" name_only other_instance).1
    = (getDialogOptions extension_names "open" name_only (fresh answers)).1
  ∧ showDialog extension_names posix_dirname "open" name_only stale_table
    = showDialog extension_names posix_dirname "open" name_only (fresh answers).
Proof.
  assert (observably_equal (fresh answers) stale_table)
    as Heq by (repeat split; reflexivity).
  split; [reflexivity|]. split; [exact Heq|].
  destruct (C6_getDialogOptions_no_side_effects extension_names posix_dirname
              (fresh answers) other_instance stale_table "open" name_only
              eq_refl Heq)
    as (Hsame & _ & _ & Hresult & _ & Hshow & _).
  split; [exact Hsame|]. split; [exact Hresult|exact (Hshow "open" name_only)].
Defined.

(** *** Runs on small inputs *)

Example dirname_of_file : posix_dirname "/home/user/foo.bpmn" = "/home/user".
Proof. reflexivity. Qed.

Example dirname_of_top_level : posix_dirname "/a" = "/".
Proof. reflexivity. Qed.

Example open_cancelled :
  (showDialog extension_names posix_dirname "open" ∅ (fresh cancels)).1
  = Ok RUndefined
  ∧ config (this (showDialog extension_names posix_dirname "open" ∅
                    (fresh cancels)).2)
    = ∅.
Proof. split; reflexivity. Qed.

Example open_two_diagrams :
  (showDialog extension_names posix_dirname "open" ∅ (fresh answers)).1
  = Ok (RFiles "/home/user/a.bpmn" [ "/tmp/b.dmn" ])
  ∧ config (this (showDialog extension_names posix_dirname "open" ∅
                    (fresh answers)).2) !! "defaultPath"
    = Some "/home/user".
Proof. split; reflexivity. Qed.

Example reload_or_cancel :
  (showDialog extension_names posix_dirname "contentChanged" ∅ (fresh answers)).1
  = Ok (RButton "cancel").
Proof. reflexivity. Qed.

(** *** Where the code leaves the statements of the specification *)

(** C3: the code at the failing input.  A first [save] answered with
    [/a/x.bpmn] caches the directory [/a]; a second [save], answered with
    [/a], is not cancelled, yet [setDefaultPath] compares the cached
    directory with the chosen path, finds them equal and returns: the stored
    [defaultPath] stays [/a] and does not become the directory [/] of the
    chosen path. *)
Lemma C3_cached_path_not_persisted :
  this_defaultPath (this after_first_save) = Some "/a"
  ∧ (showDialog extension_names posix_dirname "save" name_and_type after_first_save).1
    = Ok (RFile "/a")
  ∧ posix_dirname "/a" = "/"
  ∧ config (this (showDialog extension_names posix_dirname "save" name_and_type
                    after_first_save).2) !! "defaultPath"
    = Some "/a"
  ∧ config (this (showDialog extension_names posix_dirname "save" name_and_type
                    after_first_save).2) !! "defaultPath"
    ≠ Some (posix_dirname "/a").
Proof.
  split_and!; [reflexivity|reflexivity|reflexivity|reflexivity|discriminate].
Qed.

(** C5: [valueOf] is not a key of the table, yet the table inherits it: the
    message box is shown with the table itself, and the failure is that of
    reading [buttons[result]], not that of calling [undefined]. *)
Lemma C5_valueOf_counterexample :
  known_kind "valueOf" = false
  ∧ (showDialog extension_names posix_dirname "valueOf" ∅ (fresh answers)).1
    = Throw (TypeError ReadOfUndefined)
  ∧ (showDialog extension_names posix_dirname "valueOf" ∅ (fresh answers)).1
    ≠ Throw UnknownRequestTypeError
  ∧ calls (showDialog extension_names posix_dirname "valueOf" ∅ (fresh answers)).2
    = [ShowMessageBox (AForeign FTable)].
Proof. split_and!; [reflexivity|reflexivity|discriminate|reflexivity]. Qed.

(** C10: the code at the failing input.  With the directory [/a] cached,
    [setDefaultPath] called with the array [[/a, /b/c.bpmn]] compares the
    cached directory with the first path, finds them equal and returns the
    cached path: the stored [defaultPath] stays [/a], which is not the
    directory [/] of the first element. *)
Lemma C10_cached_first_not_persisted :
  this_defaultPath (this after_first_save) = Some "/a"
  ∧ (setDefaultPath posix_dirname (Many "/a" [ "/b/c.bpmn" ]) after_first_save).1
    = Ok (Some "/a")
  ∧ posix_dirname "/a" = "/"
  ∧ config (this (setDefaultPath posix_dirname (Many "/a" [ "/b/c.bpmn" ])
                    after_first_save).2) !! "defaultPath"
    = Some "/a"
  ∧ config (this (setDefaultPath posix_dirname (Many "/a" [ "/b/c.bpmn" ])
                    after_first_save).2) !! "defaultPath"
    ≠ Some (posix_dirname "/a").
Proof.
  split_and!; [reflexivity|reflexivity|reflexivity|reflexivity|discriminate].
Qed.

(** ** Properties of the parsing of [LINKED_DEPENDENCIES] *)

Lemma truthy_false s : truthy s = false → s = "".
Proof. by destruct s. Qed.

Lemma getDependencies_Some s :
  getDependencies (Some s)
  = map parse_dependency (List.filter truthy (split comma s)).
Proof.
  unfold getDependencies. destruct (truthy s) eqn:Hs; [done|].
  by rewrite (truthy_false s Hs).
Qed.

Lemma split_at_free sep s :
  occurs sep s = false → split_at sep s = (s, []).
Proof.
  induction s as [|c s IH]; [done|]. cbn. intros [Hc Hs]%orb_false_elim.
  by rewrite (IH Hs), Hc.
Qed.

Lemma append_cons c a b : String c a ++ b = String c (a ++ b).
Proof. reflexivity. Qed.

Lemma split_at_app sep a b :
  occurs sep a = false →
  split_at sep (a ++ String sep b) = (a, split sep b).
Proof.
  unfold split. induction a as [|c a IH].
  - intros _. change ("" ++ String sep b) with (String sep b). cbn.
    rewrite Ascii.eqb_refl. by destruct (split_at sep b).
  - intros [Hc Ha]%orb_false_elim. rewrite append_cons. cbn.
    by rewrite (IH Ha), Hc.
Qed.

Lemma occurs_app c a b : occurs c (a ++ b) = occurs c a || occurs c b.
Proof.
  induction a as [|c' a IH]; [done|].
  rewrite append_cons. cbn. by rewrite IH, orb_assoc.
Qed.

Lemma split_free sep s : occurs sep s = false → split sep s = [s].
Proof. intros H. unfold split. by rewrite split_at_free. Qed.

Lemma split_app sep a b :
  occurs sep a = false → split sep (a ++ String sep b) = a :: split sep b.
Proof. intros H. unfold split at 1. by rewrite split_at_app. Qed.

Lemma split_join_comma names :
  names ≠ [] →
  forallb (fun name => negb (occurs comma name)) names = true →
  split comma (join "," names) = names.
Proof.
  induction names as [|name [|name' rest] IH]; [done|..]; intros _ Hfree.
  - cbn in *. apply split_free. by destruct (occurs comma name).
  - cbn [forallb] in Hfree. apply andb_prop in Hfree as [Hname Hrest].
    change (join "," (name :: name' :: rest))
      with (name ++ String comma (join "," (name' :: rest))).
    rewrite split_app by by destruct (occurs comma name).
    by rewrite IH.
Qed.

Lemma written_out_name d :
  written_out d = true →
  occurs comma (dependencyName d) = false
  ∧ truthy (dependencyName d) = true
  ∧ parse_dependency (dependencyName d) = d.
Proof.
  destruct d as [rp [r|]]; unfold written_out, plain, dependencyName; cbn;
    [|done].
  intros [Hrepo Href]%andb_prop.
  apply andb_prop in Hrepo as [Hc Hh], Href as [Hc' Hh'].
  apply negb_true_iff in Hc, Hh, Hc', Hh'.
  change (rp ++ "#" ++ r) with (rp ++ String hash r). split_and!.
  - rewrite occurs_app, Hc. cbn. by rewrite Hc'.
  - by destruct rp.
  - unfold parse_dependency.
    rewrite split_at_app by done. by rewrite split_free.
Qed.

(** X11: a list of dependencies that each have a [ref] and are written
    without [,] and [#], joined as [repo#ref,repo#ref,...], is parsed back by
    [getDependencies] as it was; the empty list is the empty string. *)
Theorem X11_listing_parses_back (deps : list Dependency) :
  forallb written_out deps = true →
  getDependencies (Some (listing deps)) = deps.
Proof.
  intros Hdeps. rewrite getDependencies_Some. unfold listing.
  destruct deps as [|d deps]; [done|].
  rewrite split_join_comma.
  - clear -Hdeps. induction (d :: deps) as [|d' rest IH]; [done|].
    cbn [forallb] in Hdeps. apply andb_prop in Hdeps as [Hd Hrest].
    destruct (written_out_name d' Hd) as (_ & Htruthy & Hparse).
    cbn. rewrite Htruthy. cbn. by rewrite Hparse, IH.
  - done.
  - clear -Hdeps. induction (d :: deps) as [|d' rest IH]; [done|].
    cbn [forallb] in Hdeps. apply andb_prop in Hdeps as [Hd Hrest].
    destruct (written_out_name d' Hd) as (Hfree & _ & _).
    cbn. by rewrite Hfree, IH.
Qed.

Lemma split_at_only sep s :
  only sep s = true →
  (split_at sep s).1 = "" ∧ List.filter truthy (split_at sep s).2 = [].
Proof.
  induction s as [|c s IH]; [done|]. cbn. intros [Hc Hs]%andb_prop.
  destruct (IH Hs) as [Hpart Hparts]. rewrite Hc.
  destruct (split_at sep s) as [part parts]. cbn in *. by rewrite Hpart, Hparts.
Qed.

Lemma getDependencies_only_commas s :
  only comma s = true → getDependencies (Some s) = [].
Proof.
  intros Hs. rewrite getDependencies_Some. unfold split.
  destruct (split_at_only comma s Hs) as [Hpart Hparts].
  destruct (split_at comma s) as [part parts]. cbn in *.
  by rewrite Hpart, Hparts.
Qed.

(** X12: when [LINKED_DEPENDENCIES] is not set, is empty or holds commas
    only, there is no dependency. *)
Theorem X12_nothing_listed (s : string) :
  only comma s = true →
  getDependencies None = [] ∧ getDependencies (Some s) = [].
Proof. intros Hs. split; [done|by apply getDependencies_only_commas]. Qed.

Lemma split_at_sound sep c s :
  (Ascii.eqb c sep = true ∨ occurs c s = false) →
  occurs c (split_at sep s).1 = false
  ∧ Forall (fun p => occurs c p = false) (split_at sep s).2.
Proof.
  intros Hc. induction s as [|c' s IH]; [by split|].
  assert (Ascii.eqb c sep = true ∨ occurs c s = false) as Hs.
  { destruct Hc as [?|[_ ?]%orb_false_elim]; eauto. }
  destruct (IH Hs) as [Hpart Hparts]. cbn.
  destruct (split_at sep s) as [part parts]. cbn in *.
  destruct (Ascii.eqb c' sep) eqn:Hsep; cbn.
  - split; [done|]. by constructor.
  - split; [|done]. rewrite Hpart, orb_false_r.
    destruct Hc as [Hc|[Hc _]%orb_false_elim]; [|done].
    apply Ascii.eqb_eq in Hc as ->. done.
Qed.

Lemma split_at_empty sep s : split_at sep s = ("", []) → s = "".
Proof.
  destruct s as [|c s]; [done|]. cbn.
  destruct (split_at sep s), (Ascii.eqb c sep); by intros [=].
Qed.

(** X13: whatever the value of [LINKED_DEPENDENCIES], neither [,] nor [#]
    occurs in the [repo] or the [ref] of a dependency [getDependencies]
    returns, and no dependency has both an empty [repo] and no [ref]. *)
Theorem X13_dependencies_hold_no_separator (value : option string) (d : Dependency) :
  In d (getDependencies value) →
  plain (repo d) = true
  ∧ (∀ r, ref d = Some r → plain r = true)
  ∧ (repo d ≠ "" ∨ is_Some (ref d)).
Proof.
  unfold getDependencies.
  set (raw := match value with
              | Some s => if truthy s then s else ""
              | None => ""
              end).
  intros (seg & <- & [Hseg Htruthy]%filter_In)%in_map_iff.
  assert (occurs comma seg = false) as Hcomma.
  { pose proof (split_at_sound comma comma raw (or_introl (Ascii.eqb_refl _)))
      as [Hpart Hparts].
    unfold split in Hseg. destruct (split_at comma raw) as [part parts].
    destruct Hseg as [<-|Hseg]; [done|].
    rewrite Forall_forall in Hparts. by apply Hparts, list_elem_of_In. }
  pose proof (split_at_sound hash hash seg (or_introl (Ascii.eqb_refl _)))
    as [Hh Hhs].
  pose proof (split_at_sound hash comma seg (or_intror Hcomma)) as [Hc Hcs].
  pose proof (split_at_empty hash seg) as Hempty.
  unfold parse_dependency, plain.
  destruct (split_at hash seg) as [rp rest]. cbn in *. split_and!.
  - by rewrite Hh, Hc.
  - intros r Hr. destruct rest as [|r' rest]; simplify_eq/=.
    by rewrite (Forall_inv Hhs), (Forall_inv Hcs).
  - destruct rest as [|r' rest]; [|right; by eexists].
    left. intros ->. rewrite Hempty in Htruthy; done.
Qed.

(** X20: of an entry with more than one [#], [getDependencies] keeps the
    part before the first as [repo] and the part between the first and the
    second as [ref]; what follows the second [#] is dropped. *)
Theorem X20_second_hash_ends_the_ref (a b c : string) :
  plain a = true →
  plain b = true →
  occurs comma c = false →
  getDependencies (Some (a ++ "#" ++ b ++ "#" ++ c)) = [ mkDependency a (Some b) ].
Proof.
  intros [Hac Hah]%andb_prop [Hbc Hbh]%andb_prop Hc.
  apply negb_true_iff in Hac, Hah, Hbc, Hbh.
  change (a ++ "#" ++ b ++ "#" ++ c) with (a ++ String hash (b ++ String hash c)).
  rewrite getDependencies_Some, split_free.
  - assert (truthy (a ++ String hash (b ++ String hash c)) = true) as Htruthy
      by by destruct a.
    cbn [List.filter]. rewrite Htruthy. cbn [map]. unfold parse_dependency.
    by rewrite split_at_app, split_app.
  - rewrite occurs_app, Hac. cbn. by rewrite occurs_app, Hbc.
Qed.

(** ** Properties of the linking of dependencies *)

Section LinkerProperties.

Variable clientDir dependenciesDir : string.
Variable path_join : list string -> string.
Variable sys : machine.

Lemma emits_then {A B} ok (m : L A) (k : A → L B) :
  emits_only ok m → (∀ a, emits_only ok (k a)) → emits_only ok (then' m k).
Proof.
  intros Hm Hk h. unfold then'. destruct (Hm h) as (new & Hnew & Hok).
  destruct (m h) as [[a|err|code] h1]; cbn [snd] in *; eauto.
  destruct (Hk a h1) as (new' & Hnew' & Hok').
  exists (new ++ new')%list. rewrite Hnew', Hnew, forallb_app, Hok, Hok'.
  by rewrite app_assoc.
Qed.

Lemma emits_one {A} ok (r : list event → outcome A) e :
  ok e = true → emits_only ok (fun h => (r h, (h ++ [e])%list)).
Proof. intros He h. exists [e]. cbn. by rewrite He. Qed.

Lemma emits_nothing {A} ok (r : outcome A) : emits_only ok (fun h => (r, h)).
Proof. intros h. exists []. by rewrite app_nil_r. Qed.

Lemma emits_exec cmd cwd : emits_only inner (exec sys cmd cwd).
Proof. by apply (emits_one inner). Qed.

Lemma emits_log line :
  String.prefix "Linked " line = false → emits_only inner (log line).
Proof. intros H. apply (emits_one inner). cbn. by rewrite H. Qed.

Ltac emits :=
  repeat first [ apply emits_exec | apply emits_log; reflexivity
               | apply emits_then; [|intros ?] ].

Lemma emits_linkFromGitHub d : emits_only inner (linkFromGitHub clientDir sys d).
Proof. unfold linkFromGitHub. emits. Qed.

Lemma emits_linkDmnJs d :
  emits_only inner (linkDmnJs clientDir dependenciesDir path_join sys d).
Proof. unfold linkDmnJs, gitClone. emits. Qed.

Lemma emits_linkBpmnJs d :
  emits_only inner (linkBpmnJs clientDir dependenciesDir path_join sys d).
Proof. unfold linkBpmnJs, gitClone. emits. Qed.

Lemma emits_linker d :
  emits_only inner (linker_of clientDir dependenciesDir path_join sys d d).
Proof.
  unfold linker_of.
  destruct (customLinkersMap _ _ _ _ !! repo d) as [link|] eqn:Hlink.
  - unfold customLinkersMap in Hlink.
    apply lookup_insert_Some in Hlink as [[_ <-]|[_ Hlink]];
      [apply emits_linkBpmnJs|].
    apply lookup_insert_Some in Hlink as [[_ <-]|[_ Hlink]];
      [apply emits_linkDmnJs|done].
  - destruct (Object_prototype !! repo d) as [m|]; [|apply emits_linkFromGitHub].
    destruct m; apply emits_nothing.
Qed.

Lemma stays_then {A B} (m : L A) (k : A → L B) :
  stays m → (∀ a, stays (k a)) → stays (then' m k).
Proof.
  intros Hm Hk h code. unfold then'. specialize (Hm h).
  destruct (m h) as [[a|err|code'] h1]; cbn in *; [apply Hk|done|].
  by destruct (Hm code').
Qed.

Lemma stays_exec cmd cwd : stays (exec sys cmd cwd).
Proof. intros h code. unfold exec. cbn. by destruct (exec_ok _ _ _ _). Qed.

Lemma stays_log line : stays (log line).
Proof. by intros h code. Qed.

Ltac stays :=
  repeat first [ apply stays_exec | apply stays_log
               | apply stays_then; [|intros ?] ].

Lemma stays_linker d :
  stays (linker_of clientDir dependenciesDir path_join sys d d).
Proof.
  unfold linker_of.
  destruct (customLinkersMap _ _ _ _ !! repo d) as [link|] eqn:Hlink.
  - unfold customLinkersMap in Hlink.
    apply lookup_insert_Some in Hlink as [[_ <-]|[_ Hlink]];
      [unfold linkBpmnJs, gitClone; stays|].
    apply lookup_insert_Some in Hlink as [[_ <-]|[_ Hlink]];
      [unfold linkDmnJs, gitClone; stays|done].
  - destruct (Object_prototype !! repo d) as [m|];
      [|unfold linkFromGitHub; stays].
    by destruct m.
Qed.

(** One turn of the loop: the dependency is announced, the linker adds its
    events, and either the dependency is reported linked or the error is
    reported and the process exits with 1. *)
Lemma link_one_cases d h :
  ∃ new,
    forallb inner new = true
    ∧ (link_one clientDir dependenciesDir path_join sys d h
       = (Returned tt,
          (h ++ Log ("Linking " ++ dependencyName d ++ "...")
             :: new ++ [Log (linked_line d)])%list)
       ∨ ∃ err,
           link_one clientDir dependenciesDir path_join sys d h
           = (Exited 1,
              (h ++ Log ("Linking " ++ dependencyName d ++ "...")
                 :: new
                 ++ [LogError ("Unable to link " ++ dependencyName d
                               ++ " due to error:") err;
                     Log "Exiting."])%list)).
Proof.
  unfold link_one, then', try_catch, log at 1. cbn.
  set (h0 := (h ++ [Log ("Linking " ++ dependencyName d ++ "...")])%list).
  destruct (emits_linker d h0) as (new & Hnew & Hok).
  pose proof (stays_linker d h0) as Hstays.
  exists new. split; [done|].
  destruct (linker_of clientDir dependenciesDir path_join sys d d h0)
    as [[[]|err|code] h1]; cbn in *; subst h1 h0.
  - left. unfold log. by rewrite <-!app_assoc.
  - right. exists err. unfold log_error, log, exit. cbn. by rewrite <-!app_assoc.
  - by destruct (Hstays code).
Qed.

Lemma linked_line_reported d : linked_lines [Log (linked_line d)] = [linked_line d].
Proof.
  unfold linked_line. generalize (dependencyName d ++ "."). intros x.
  by destruct x.
Qed.

Lemma linked_lines_app a b :
  linked_lines (a ++ b) = (linked_lines a ++ linked_lines b)%list.
Proof. apply omap_app. Qed.

Lemma linked_lines_inner new : forallb inner new = true → linked_lines new = [].
Proof.
  unfold linked_lines.
  induction new as [|e new IH]; [done|]. cbn. intros [He Hnew]%andb_prop.
  rewrite (IH Hnew). destruct e; try done. cbn in *.
  by destruct (String.prefix "Linked " line).
Qed.

Lemma inner_no_reset new :
  forallb inner new = true → forallb (fun e => negb (resets e)) new = true.
Proof.
  induction new as [|e new IH]; [done|]. cbn. intros [He Hnew]%andb_prop.
  rewrite (IH Hnew). by destruct e.
Qed.

(** The loop: it adds events that leave the directory tree as a whole
    alone, and either returns, every dependency reported linked in order, or
    exits with 1, whatever dependencies follow. *)
Lemma link_all_run deps h :
  ∃ new,
    (link_all clientDir dependenciesDir path_join sys deps h).2 = (h ++ new)%list
    ∧ forallb (fun e => negb (resets e)) new = true
    ∧ ((link_all clientDir dependenciesDir path_join sys deps h).1 = Returned tt
       ∧ linked_lines new = map linked_line deps
       ∨ (link_all clientDir dependenciesDir path_join sys deps h).1 = Exited 1
         ∧ ∀ more,
             link_all clientDir dependenciesDir path_join sys (deps ++ more) h
             = link_all clientDir dependenciesDir path_join sys deps h).
Proof.
  revert h. induction deps as [|d rest IH]; intros h.
  - exists []. rewrite app_nil_r. split_and!; [done|done|by left].
  - cbn [link_all app]. unfold then'.
    destruct (link_one_cases d h) as (new & Hok & [Hret|[err Hexit]]).
    + rewrite Hret.
      destruct (IH (h ++ Log ("Linking " ++ dependencyName d ++ "...")
                      :: new ++ [Log (linked_line d)])%list)
        as (new' & Hnew' & Hreset & Hcases).
      exists ([Log ("Linking " ++ dependencyName d ++ "...")]
                ++ new ++ [Log (linked_line d)] ++ new')%list.
      split_and!.
      * rewrite Hnew'. rewrite <-!app_assoc. cbn. by rewrite <-!app_assoc.
      * by rewrite !forallb_app, (inner_no_reset _ Hok), Hreset.
      * destruct Hcases as [[Hreturned Hlines]|[Hexited Hmore]]; [left|right].
        -- split; [done|].
           rewrite !linked_lines_app, (linked_lines_inner _ Hok), Hlines.
           by rewrite linked_line_reported.
        -- split; [done|]. intros more. apply Hmore.
    + rewrite Hexit.
      exists ([Log ("Linking " ++ dependencyName d ++ "...")]
                ++ new
                ++ [LogError ("Unable to link " ++ dependencyName d
                              ++ " due to error:") err;
                    Log "Exiting."])%list.
      split_and!.
      * reflexivity.
      * by rewrite !forallb_app, (inner_no_reset _ Hok).
      * right. split; [done|]. intros more. reflexivity.
Qed.

(** X14: when [LINKED_DEPENDENCIES] is not set, is empty or holds commas
    only, the script prints that there is nothing to link and returns: it
    neither deletes nor creates a directory and runs no command. *)
Theorem X14_nothing_to_link (s : string) (h : list event) :
  only comma s = true →
  script clientDir dependenciesDir path_join sys None h
  = (Returned tt, (h ++ [Log "No dependencies to link detected, exiting."])%list)
  ∧ script clientDir dependenciesDir path_join sys (Some s) h
    = (Returned tt, (h ++ [Log "No dependencies to link detected, exiting."])%list).
Proof.
  intros Hs. unfold script. by rewrite (getDependencies_only_commas s Hs).
Qed.

Lemma linkDependencies_cons d rest h :
  linkDependencies clientDir dependenciesDir path_join sys (d :: rest) h
  = if del_ok sys h dependenciesDir then
      if mkdir_ok sys (h ++ [Del dependenciesDir]) dependenciesDir then
        link_all clientDir dependenciesDir path_join sys (d :: rest)
          (h ++ [Del dependenciesDir; Mkdir dependenciesDir])%list
      else (Raised (MkdirFailed dependenciesDir),
            (h ++ [Del dependenciesDir; Mkdir dependenciesDir])%list)
    else (Raised (DelFailed dependenciesDir), (h ++ [Del dependenciesDir])%list).
Proof.
  unfold linkDependencies, then', del, mkdirSync.
  destruct (del_ok sys h dependenciesDir); [|done].
  destruct (mkdir_ok sys _ dependenciesDir); by rewrite <-app_assoc.
Qed.

(** X15: when linking a dependency fails, the process exits with code 1 and
    the dependencies listed after it are not touched: the run is the same
    whatever follows in the list. *)
Theorem X15_first_failure_ends_the_run (deps more : list Dependency)
    (h : list event) (code : nat) :
  (linkDependencies clientDir dependenciesDir path_join sys deps h).1 = Exited code →
  code = 1
  ∧ linkDependencies clientDir dependenciesDir path_join sys (deps ++ more) h
    = linkDependencies clientDir dependenciesDir path_join sys deps h.
Proof.
  destruct deps as [|d rest]; [done|].
  change ((d :: rest) ++ more)%list with (d :: (rest ++ more))%list.
  rewrite !linkDependencies_cons.
  destruct (del_ok sys h dependenciesDir); [|done].
  destruct (mkdir_ok sys _ dependenciesDir); [|done].
  destruct (link_all_run (d :: rest)
              (h ++ [Del dependenciesDir; Mkdir dependenciesDir])%list)
    as (new & _ & _ & [[Hret _]|[Hexit Hmore]]); intros Hcode.
  - rewrite Hret in Hcode. done.
  - rewrite Hexit in Hcode. split; [by injection Hcode|apply Hmore].
Qed.

(** X16: when [linkDependencies] returns for a list that is not empty, the
    directory has been deleted and created first and every dependency has
    been reported as linked, each once and in the order of the list. *)
Theorem X16_return_means_all_linked (deps : list Dependency) (h : list event) :
  deps ≠ [] →
  (linkDependencies clientDir dependenciesDir path_join sys deps h).1 = Returned tt →
  ∃ new,
    (linkDependencies clientDir dependenciesDir path_join sys deps h).2
    = (h ++ [Del dependenciesDir; Mkdir dependenciesDir] ++ new)%list
    ∧ linked_lines new = map linked_line deps.
Proof.
  destruct deps as [|d rest]; [done|]. intros _.
  rewrite linkDependencies_cons.
  destruct (del_ok sys h dependenciesDir); [|done].
  destruct (mkdir_ok sys _ dependenciesDir); [|done].
  destruct (link_all_run (d :: rest)
              (h ++ [Del dependenciesDir; Mkdir dependenciesDir])%list)
    as (new & Hnew & _ & [[_ Hlines]|[Hexit _]]); intros Hret.
  - exists new. split; [|done]. by rewrite Hnew, <-app_assoc.
  - rewrite Hexit in Hret. done.
Qed.

(** X17: for a list that is not empty the directory of the dependencies is
    deleted first and created next, once each; when either fails the error
    escapes and nothing is linked. *)
Theorem X17_directory_reset_first (deps : list Dependency) (h : list event) :
  deps ≠ [] →
  let run := linkDependencies clientDir dependenciesDir path_join sys deps h in
  ∃ after_del,
    run.2 = (h ++ Del dependenciesDir :: after_del)%list
    ∧ (del_ok sys h dependenciesDir = false →
       after_del = [] ∧ run.1 = Raised (DelFailed dependenciesDir))
    ∧ (del_ok sys h dependenciesDir = true →
       ∃ after_mkdir,
         after_del = Mkdir dependenciesDir :: after_mkdir
         ∧ forallb (fun e => negb (resets e)) after_mkdir = true
         ∧ (mkdir_ok sys (h ++ [Del dependenciesDir]) dependenciesDir = false →
            after_mkdir = [] ∧ run.1 = Raised (MkdirFailed dependenciesDir))).
Proof.
  destruct deps as [|d rest]; [done|]. intros _. cbv zeta.
  rewrite linkDependencies_cons.
  destruct (del_ok sys h dependenciesDir).
  - destruct (mkdir_ok sys _ dependenciesDir).
    + destruct (link_all_run (d :: rest)
                  (h ++ [Del dependenciesDir; Mkdir dependenciesDir])%list)
        as (new & Hnew & Hreset & _).
      exists (Mkdir dependenciesDir :: new). split_and!; [|done|].
      * rewrite Hnew. by rewrite <-app_assoc.
      * intros _. exists new. by split_and!.
    + exists [Mkdir dependenciesDir]. split_and!; [done|done|].
      intros _. exists []. by split_and!.
  - exists []. by split_and!.
Qed.

(** X18: an entry of [LINKED_DEPENDENCIES] without [#] is a dependency
    without [ref]; unless its name is a key of the map of linkers or names a
    member the map inherits, the one command run for it is
    [npm i <repo>#undefined], in the client directory. *)
Theorem X18_entry_without_ref (entry : string) (h : list event) :
  plain entry = true →
  truthy entry = true →
  custom entry = false →
  inherited entry = false →
  del_ok sys h dependenciesDir = true →
  mkdir_ok sys (h ++ [Del dependenciesDir]) dependenciesDir = true →
  getDependencies (Some entry) = [ mkDependency entry None ]
  ∧ List.filter runs (script clientDir dependenciesDir path_join sys (Some entry) h).2
    = (List.filter runs h ++ [Exec ("npm i " ++ entry ++ "#undefined") clientDir])%list.
Proof.
  intros [Hcomma Hhash]%andb_prop Htruthy Hcustom Hinherited Hdel Hmkdir.
  apply negb_true_iff in Hcomma, Hhash.
  assert (getDependencies (Some entry) = [ mkDependency entry None ]) as Hdeps.
  { rewrite getDependencies_Some, split_free by done. cbn. rewrite Htruthy. cbn.
    unfold parse_dependency. by rewrite split_at_free. }
  split; [done|]. unfold script. rewrite Hdeps, linkDependencies_cons, Hdel, Hmkdir.
  cbn [link_all]. unfold then', link_one, try_catch, linker_of. cbn [repo].
  apply bool_decide_eq_false in Hcustom, Hinherited.
  assert (customLinkersMap clientDir dependenciesDir path_join sys !! entry = None)
    as ->.
  { unfold customLinkersMap. rewrite !lookup_insert_ne, lookup_empty; [done|..];
      intros <-; apply Hcustom; set_solver. }
  destruct (Object_prototype !! entry) eqn:Hproto;
    [destruct Hinherited; by eauto|].
  unfold log at 1. cbn. unfold then', linkFromGitHub, exec, log. cbn.
  destruct (exec_ok _ _ _ _); cbn;
    rewrite !List.filter_app; cbn; rewrite !app_nil_r; reflexivity.
Qed.

(** *** No command after a failed one *)

Lemma clean_halted h new : clean sys h new = true → halted sys h new = true.
Proof.
  revert h. induction new as [|e new IH]; intros h; [done|].
  destruct e; cbn; try apply IH.
  intros [-> Hnew]%andb_prop. by apply IH.
Qed.

Lemma clean_app h a b :
  clean sys h (a ++ b) = clean sys h a && clean sys (h ++ a) b.
Proof.
  revert h. induction a as [|e a IH]; intros h.
  - by rewrite app_nil_r.
  - cbn [app]. replace (h ++ e :: a)%list with ((h ++ [e]) ++ a)%list
      by by rewrite <-app_assoc.
    destruct e; cbn; rewrite IH; try done. by rewrite andb_assoc.
Qed.

Lemma halted_app_clean h a b :
  clean sys h a = true → halted sys h (a ++ b) = halted sys (h ++ a) b.
Proof.
  revert h. induction a as [|e a IH]; intros h.
  - by rewrite app_nil_r.
  - cbn [app]. replace (h ++ e :: a)%list with ((h ++ [e]) ++ a)%list
      by by rewrite <-app_assoc.
    destruct e; cbn; try apply IH.
    intros [-> Ha]%andb_prop. by apply IH.
Qed.

Lemma halted_app_quiet h a b :
  halted sys h a = true → forallb (fun e => negb (runs e)) b = true →
  halted sys h (a ++ b) = true.
Proof.
  revert h. induction a as [|e a IH]; intros h Ha Hb.
  - cbn. clear Ha. revert h. induction b as [|e b IHb]; intros h; [done|].
    cbn in Hb. apply andb_prop in Hb as [He Hb]. destruct e; try done; by apply IHb.
  - destruct e; cbn in *; try by apply IH.
    destruct (exec_ok sys h cmd cwd); [by apply IH|].
    by rewrite forallb_app, Ha, Hb.
Qed.

Lemma careful_then {A B} (m : L A) (k : A → L B) :
  careful sys m → (∀ a, careful sys (k a)) → careful sys (then' m k).
Proof.
  intros Hm Hk h. unfold then'. destruct (Hm h) as (new & Hnew & Hhalted & Hclean).
  destruct (m h) as [[a|err|code] h1]; cbn [fst snd] in *; subst h1.
  - specialize (Hclean a eq_refl).
    destruct (Hk a (h ++ new)%list) as (new' & Hnew' & Hhalted' & Hclean').
    exists (new ++ new')%list. split_and!.
    + by rewrite Hnew', app_assoc.
    + by rewrite halted_app_clean.
    + intros b Hb. by rewrite clean_app, Hclean, (Hclean' b Hb).
  - exists new. by split_and!.
  - exists new. by split_and!.
Qed.

Lemma careful_exec cmd cwd : careful sys (exec sys cmd cwd).
Proof.
  intros h. exists [Exec cmd cwd]. unfold exec. cbn.
  destruct (exec_ok sys h cmd cwd); by split_and!.
Qed.

Lemma careful_log line : careful sys (log line).
Proof. intros h. exists [Log line]. by split_and!. Qed.

Lemma careful_nothing {A} (r : outcome A) : careful sys (fun h => (r, h)).
Proof. intros h. exists []. rewrite app_nil_r. by split_and!. Qed.

Ltac careful :=
  repeat first [ apply careful_exec | apply careful_log
               | apply careful_then; [|intros ?] ].

Lemma careful_linker d :
  careful sys (linker_of clientDir dependenciesDir path_join sys d d).
Proof.
  unfold linker_of.
  destruct (customLinkersMap _ _ _ _ !! repo d) as [link|] eqn:Hlink.
  - unfold customLinkersMap in Hlink.
    apply lookup_insert_Some in Hlink as [[_ <-]|[_ Hlink]];
      [unfold linkBpmnJs, gitClone; careful|].
    apply lookup_insert_Some in Hlink as [[_ <-]|[_ Hlink]];
      [unfold linkDmnJs, gitClone; careful|done].
  - destruct (Object_prototype !! repo d) as [m|];
      [|unfold linkFromGitHub; careful].
    destruct m; apply careful_nothing.
Qed.

Lemma careful_link_one d :
  careful sys (link_one clientDir dependenciesDir path_join sys d).
Proof.
  intros h. unfold link_one, then', try_catch, log at 1. cbn.
  set (h0 := (h ++ [Log ("Linking " ++ dependencyName d ++ "...")])%list).
  destruct (careful_linker d h0) as (new & Hnew & Hhalted & Hclean).
  destruct (linker_of clientDir dependenciesDir path_join sys d d h0)
    as [[[]|err|code] h1]; cbn [fst snd] in *; subst h1 h0.
  - exists ([Log ("Linking " ++ dependencyName d ++ "...")] ++ new
              ++ [Log (linked_line d)])%list.
    unfold log. cbn [fst snd]. split_and!.
    + by rewrite <-!app_assoc.
    + cbn [app halted]. by rewrite halted_app_clean by exact (Hclean tt eq_refl).
    + intros _ _. cbn [app clean]. rewrite clean_app, (Hclean tt eq_refl). done.
  - exists ([Log ("Linking " ++ dependencyName d ++ "...")] ++ new
              ++ [LogError ("Unable to link " ++ dependencyName d
                            ++ " due to error:") err;
                  Log "Exiting."])%list.
    unfold log_error, log, exit. cbn [fst snd]. split_and!.
    + by rewrite <-!app_assoc.
    + cbn [app halted]. by apply halted_app_quiet.
    + done.
  - exists ([Log ("Linking " ++ dependencyName d ++ "...")] ++ new)%list.
    split_and!; [by rewrite <-app_assoc|done|done].
Qed.

Lemma careful_link_all deps :
  careful sys (link_all clientDir dependenciesDir path_join sys deps).
Proof.
  induction deps as [|d rest IH]; [apply careful_nothing|].
  cbn [link_all]. apply careful_then; [apply careful_link_one|by intros _].
Qed.

Lemma careful_del dir : careful sys (del sys dir).
Proof.
  intros h. exists [Del dir]. unfold del. cbn. by split_and!.
Qed.

Lemma careful_mkdirSync dir : careful sys (mkdirSync sys dir).
Proof.
  intros h. exists [Mkdir dir]. unfold mkdirSync. cbn. by split_and!.
Qed.

Lemma halted_failed h a cmd cwd b :
  halted sys h (a ++ Exec cmd cwd :: b) = true →
  exec_ok sys (h ++ a) cmd cwd = false →
  List.filter runs b = [].
Proof.
  revert h. induction a as [|e a IH]; intros h.
  - rewrite app_nil_r. cbn. intros Hb Hfail. rewrite Hfail in Hb.
    clear Hfail. induction b as [|e b IHb]; [done|].
    cbn in Hb. apply andb_prop in Hb as [He Hb]. cbn.
    destruct (runs e); [done|by apply IHb].
  - cbn [app]. replace (h ++ e :: a)%list with ((h ++ [e]) ++ a)%list
      by by rewrite <-app_assoc.
    destruct e; cbn; try apply IH.
    destruct (exec_ok sys h cmd0 cwd0); [apply IH|].
    rewrite forallb_app. cbn. by rewrite andb_false_r.
Qed.

(** X19: in a run of [linkDependencies] no command is run after a command
    that failed, neither by the linker of the same dependency nor for a
    later one. *)
Theorem X19_no_command_after_a_failed_one (deps : list Dependency)
    (h before after : list event) (cmd cwd : string) :
  (linkDependencies clientDir dependenciesDir path_join sys deps h).2
  = (h ++ before ++ Exec cmd cwd :: after)%list →
  exec_ok sys (h ++ before) cmd cwd = false →
  List.filter runs after = [].
Proof.
  assert (careful sys (linkDependencies clientDir dependenciesDir path_join sys deps))
    as Hcareful.
  { unfold linkDependencies. destruct deps as [|d rest]; [apply careful_log|].
    apply careful_then; [apply careful_del|intros _].
    apply careful_then; [apply careful_mkdirSync|intros _].
    apply careful_link_all. }
  destruct (Hcareful h) as (new & Hnew & Hhalted & _).
  rewrite Hnew. intros ->%app_inv_head. by apply halted_failed.
Qed.

End LinkerProperties.

(** ** The further properties at concrete inputs *)

Lemma X2_other_key_witness :
  "theme" ≠ "defaultPath"
  ∧ config (this (showDialog extension_names posix_dirname "save" name_and_type
                    (fresh answers)).2) !! "theme"
    = config (this (fresh answers)) !! "theme".
Proof.
  split; [discriminate|].
  exact (proj2 (X2_only_defaultPath_is_written extension_names posix_dirname
                  (fresh answers) "save" name_and_type (One "/x/y") "theme"
                  ltac:(discriminate))).
Defined.

Lemma X3_failed_save_witness :
  (showDialog extension_names posix_dirname "save" name_only after_first_save).1
  = Throw (MissingOptionError "fileType")
  ∧ config (this (showDialog extension_names posix_dirname "save" name_only
                    after_first_save).2)
    = config (this after_first_save).
Proof.
  split; [reflexivity|].
  exact (proj1 (X3_failure_writes_nothing extension_names posix_dirname
                  after_first_save "save" name_only
                  (MissingOptionError "fileType") eq_refl)).
Defined.

Lemma X4_after_first_save_witness :
  consistent after_first_save
  ∧ consistent (showDialog extension_names posix_dirname "open" ∅
                  after_first_save).2.
Proof.
  assert (consistent after_first_save) as H by reflexivity.
  split; [exact H|].
  exact (proj1 (proj2 (proj2 (X4_cache_agrees_with_store extension_names
                                posix_dirname after_first_save "open" ∅
                                (One "/x/y") H)))).
Defined.

Lemma X6_close_label_witness :
  message_box Close = true
  ∧ complete Close name_only = true
  ∧ ∃ d l shown_labels,
      (getDialogOptions extension_names "close" name_only (fresh answers)).1
      = Ok (VSpec d)
      ∧ buttons d = Some l
      ∧ buttons (shown_of d) = Some shown_labels
      ∧ length shown_labels = length l.
Proof.
  split; [reflexivity|]. split; [reflexivity|].
  destruct (X6_label_and_identifier_agree extension_names posix_dirname
              (fresh answers) Close name_only "Save" eq_refl eq_refl)
    as (d & l & ls & Hget & Hl & Hls & Hlen & _).
  exists d, l, ls. split; [exact Hget|]. split; [exact Hl|].
  split; [exact Hls|exact Hlen].
Defined.

Lemma X7_close_cancel_witness :
  message_box Close = true
  ∧ complete Close name_only = true
  ∧ ∃ d l,
      (getDialogOptions extension_names "close" name_only (fresh answers)).1
      = Ok (VSpec d)
      ∧ buttons d = Some l
      ∧ "cancel" ∈ (id <$> l)
      ∧ NoDup (id <$> l)
      ∧ NoDup (label <$> l).
Proof.
  split; [reflexivity|]. split; [reflexivity|].
  exact (X7_cancel_offered_and_buttons_distinct extension_names (fresh answers)
           Close name_only eq_refl eq_refl).
Defined.

Lemma X8_extra_field_witness :
  (getDialogOptions extension_names "close" name_only (fresh answers)).1
  = (getDialogOptions extension_names "close" (<[ "extra" := "1" ]> name_only)
       (fresh answers)).1.
Proof.
  apply (X8_only_required_fields_are_read extension_names (fresh answers) Close
           name_only (<[ "extra" := "1" ]> name_only)).
  intros key Hin. apply list_elem_of_singleton in Hin. rewrite Hin. reflexivity.
Defined.

Lemma X9_other_store_witness :
  message_box Close = true
  ∧ (getDialogOptions extension_names "close" name_only (fresh answers)).1
    = (getDialogOptions extension_names "close" name_only after_first_save).1.
Proof.
  split; [reflexivity|].
  exact (X9_message_box_ignores_preferences extension_names (fresh answers)
           after_first_save Close name_only eq_refl).
Defined.

Lemma X10_close_result_witness :
  (showDialog extension_names posix_dirname "close" name_only (fresh answers)).1
  = Ok (RButton "save")
  ∧ ∃ i ids, RButton "save" = RButton i ∧ button_ids Close = Some ids ∧ i ∈ ids.
Proof.
  split; [reflexivity|].
  exact (X10_result_fits_kind extension_names posix_dirname (fresh answers) Close
           name_only (RButton "save") eq_refl).
Defined.

Lemma X11_example_of_the_source_witness :
  forallb written_out dmn_and_bpmn = true
  ∧ getDependencies (Some "bpmn-io/dmn-js#master,bpmn-io/bpmn-js#develop")
    = dmn_and_bpmn.
Proof.
  split; [reflexivity|]. exact (X11_listing_parses_back dmn_and_bpmn eq_refl).
Defined.

Lemma X12_two_commas_witness :
  only comma ",," = true
  ∧ getDependencies None = [] ∧ getDependencies (Some ",,") = [].
Proof. split; [reflexivity|]. exact (X12_nothing_listed ",," eq_refl). Defined.

Lemma X13_three_parts_witness :
  In (mkDependency "a" (Some "b")) (getDependencies (Some "a#b#c,d"))
  ∧ plain "a" = true
  ∧ (∀ r, Some "b" = Some r → plain r = true)
  ∧ ("a" ≠ "" ∨ is_Some (Some "b")).
Proof.
  assert (In (mkDependency "a" (Some "b")) (getDependencies (Some "a#b#c,d")))
    as H by (left; reflexivity).
  split; [exact H|].
  exact (X13_dependencies_hold_no_separator (Some "a#b#c,d")
           (mkDependency "a" (Some "b")) H).
Defined.

Lemma X14_one_comma_witness :
  only comma "," = true
  ∧ script "/repo/client" "/repo/tasks/.linked-dependencies" slash_join all_ok
      (Some ",") []
    = (Returned tt, [Log "No dependencies to link detected, exiting."]).
Proof.
  split; [reflexivity|].
  exact (proj2 (X14_nothing_to_link "/repo/client" "/repo/tasks/.linked-dependencies"
                  slash_join all_ok "," [] eq_refl)).
Defined.

Lemma X15_first_of_two_fails_witness :
  (linkDependencies "/repo/client" "/repo/tasks/.linked-dependencies" slash_join
     (fails_on "npm i a/lib#1") [ lib_a ] []).1
  = Exited 1
  ∧ linkDependencies "/repo/client" "/repo/tasks/.linked-dependencies" slash_join
      (fails_on "npm i a/lib#1") [ lib_a; lib_b ] []
    = linkDependencies "/repo/client" "/repo/tasks/.linked-dependencies" slash_join
        (fails_on "npm i a/lib#1") [ lib_a ] [].
Proof.
  split; [reflexivity|].
  exact (proj2 (X15_first_failure_ends_the_run "/repo/client"
                  "/repo/tasks/.linked-dependencies" slash_join
                  (fails_on "npm i a/lib#1") [ lib_a ] [ lib_b ] [] 1 eq_refl)).
Defined.

Lemma X16_two_linked_witness :
  [ lib_a; lib_b ] ≠ []
  ∧ (linkDependencies "/repo/client" "/repo/tasks/.linked-dependencies" slash_join
       all_ok [ lib_a; lib_b ] []).1
    = Returned tt
  ∧ ∃ new,
      (linkDependencies "/repo/client" "/repo/tasks/.linked-dependencies"
         slash_join all_ok [ lib_a; lib_b ] []).2
      = ([] ++ [Del "/repo/tasks/.linked-dependencies";
                Mkdir "/repo/tasks/.linked-dependencies"] ++ new)%list
      ∧ linked_lines new = [ "Linked a/lib#1."; "Linked b/lib#2." ].
Proof.
  split; [discriminate|]. split; [reflexivity|].
  exact (X16_return_means_all_linked "/repo/client"
           "/repo/tasks/.linked-dependencies" slash_join all_ok [ lib_a; lib_b ] []
           ltac:(discriminate) eq_refl).
Defined.

Lemma X17_reset_witness :
  dmn_and_bpmn ≠ []
  ∧ ∃ after_del,
      (linkDependencies "/repo/client" "/repo/tasks/.linked-dependencies"
         slash_join all_ok dmn_and_bpmn []).2
      = ([] ++ Del "/repo/tasks/.linked-dependencies" :: after_del)%list.
Proof.
  split; [discriminate|].
  destruct (X17_directory_reset_first "/repo/client"
              "/repo/tasks/.linked-dependencies" slash_join all_ok dmn_and_bpmn []
              ltac:(discriminate)) as (after_del & Hrun & _).
  exists after_del. exact Hrun.
Defined.

Lemma X18_no_ref_witness :
  plain "some/lib" = true
  ∧ truthy "some/lib" = true
  ∧ custom "some/lib" = false
  ∧ inherited "some/lib" = false
  ∧ getDependencies (Some "some/lib") = [ mkDependency "some/lib" None ]
  ∧ List.filter runs
      (script "/repo/client" "/repo/tasks/.linked-dependencies" slash_join all_ok
         (Some "some/lib") []).2
    = [Exec "npm i some/lib#undefined" "/repo/client"].
Proof.
  split; [reflexivity|]. split; [reflexivity|]. split; [reflexivity|].
  split; [reflexivity|].
  exact (X18_entry_without_ref "/repo/client" "/repo/tasks/.linked-dependencies"
           slash_join all_ok "some/lib" [] eq_refl eq_refl eq_refl eq_refl
           eq_refl eq_refl).
Defined.

Lemma X19_failed_checkout_witness :
  (linkDependencies "/repo/client" "/repo/tasks/.linked-dependencies" slash_join
     (fails_on "git checkout master") dmn_and_bpmn []).2
  = ([] ++ [ Del "/repo/tasks/.linked-dependencies";
             Mkdir "/repo/tasks/.linked-dependencies";
             Log "Linking bpmn-io/dmn-js#master...";
             Exec "git clone https://github.com/bpmn-io/dmn-js.git"
                  "/repo/tasks/.linked-dependencies";
             Log "Cloned bpmn-io/dmn-js." ]
        ++ Exec "git checkout master" "/repo/tasks/.linked-dependencies/dmn-js"
        :: [ LogError "Unable to link bpmn-io/dmn-js#master due to error:"
               (CommandFailed "git checkout master"
                  "/repo/tasks/.linked-dependencies/dmn-js");
             Log "Exiting." ])%list
  ∧ List.filter runs
      [ LogError "Unable to link bpmn-io/dmn-js#master due to error:"
          (CommandFailed "git checkout master"
             "/repo/tasks/.linked-dependencies/dmn-js");
        Log "Exiting." ]
    = [].
Proof.
  split; [reflexivity|].
  exact (X19_no_command_after_a_failed_one "/repo/client"
           "/repo/tasks/.linked-dependencies" slash_join
           (fails_on "git checkout master") dmn_and_bpmn []
           [ Del "/repo/tasks/.linked-dependencies";
             Mkdir "/repo/tasks/.linked-dependencies";
             Log "Linking bpmn-io/dmn-js#master...";
             Exec "git clone https://github.com/bpmn-io/dmn-js.git"
                  "/repo/tasks/.linked-dependencies";
             Log "Cloned bpmn-io/dmn-js." ]
           [ LogError "Unable to link bpmn-io/dmn-js#master due to error:"
               (CommandFailed "git checkout master"
                  "/repo/tasks/.linked-dependencies/dmn-js");
             Log "Exiting." ]
           "git checkout master" "/repo/tasks/.linked-dependencies/dmn-js"
           eq_refl eq_refl).
Defined.

Lemma X20_two_hashes_witness :
  plain "bpmn-io/x" = true
  ∧ plain "feature" = true
  ∧ occurs comma "1" = false
  ∧ getDependencies (Some "bpmn-io/x#feature#1")
    = [ mkDependency "bpmn-io/x" (Some "feature") ].
Proof.
  split; [reflexivity|]. split; [reflexivity|]. split; [reflexivity|].
  exact (X20_second_hash_ends_the_ref "bpmn-io/x" "feature" "1"
           eq_refl eq_refl eq_refl).
Defined.
